(** * Camera translator: geometry, overlay, capture scheduling and history

    A shallow embedding of the TypeScript sources
    ([App.tsx], [components/Overlay.tsx], the camera feed component,
    [services/geminiService.ts] and the shared type declarations).

    JavaScript numbers are IEEE 754 binary64 values; they are embedded with
    the executable specification [SpecFloat] (precision 53, emax 1024).
    The geometry code only uses the field operations and comparisons, so it
    is written once over a small interface [Number] and instantiated twice:
    at binary64 (what the program computes) and at the rationals [Q] (the
    exact values of the same formulas).  JavaScript strings are sequences of
    UTF-16 code units. *)

From Stdlib Require Import ZArith NArith QArith Qround List Bool String Ascii Lia Lqa.
From Stdlib Require Import DecimalString.
From Stdlib Require Import Floats.SpecFloat.
Import ListNotations.

Local Open Scope Z_scope.

(* ================================================================== *)
(** ** JavaScript numbers *)

(** The arithmetic the geometry code needs.  [gt] is [>], [strict_eq] is
    [===] on numbers. *)
Class Number (N : Type) := {
  of_Z : Z -> N;
  add : N -> N -> N;
  sub : N -> N -> N;
  mul : N -> N -> N;
  div : N -> N -> N;
  gt : N -> N -> bool;
  strict_eq : N -> N -> bool
}.

Declare Scope js_scope.
Delimit Scope js_scope with js.
Infix "+" := add : js_scope.
Infix "-" := sub : js_scope.
Infix "*" := mul : js_scope.
Infix "/" := div : js_scope.
Infix ">" := gt : js_scope.
Infix "===" := strict_eq (at level 70, no associativity) : js_scope.

(** binary64 *)
Definition float := spec_float.
Definition prec : Z := 53.
Definition emax : Z := 1024.

Definition float_of_Z (z : Z) : float := binary_normalize prec emax z 0 false.

#[export] Instance Number_float : Number float := {
  of_Z := float_of_Z;
  add := SFadd prec emax;
  sub := SFsub prec emax;
  mul := SFmul prec emax;
  div := SFdiv prec emax;
  gt := fun a b => SFltb b a;
  strict_eq := SFeqb
}.

(** exact rationals *)
#[export] Instance Number_Q : Number Q := {
  of_Z := inject_Z;
  add := Qplus;
  sub := Qminus;
  mul := Qmult;
  div := Qdiv;
  gt := fun a b => negb (Qle_bool a b);
  strict_eq := Qeq_bool
}.

(** The integer part of a number, as the DOM takes it when a number is
    assigned to an integer attribute: the fraction is dropped, NaN and the
    infinities give 0. *)
Class Truncation (N : Type) := truncate : N -> Z.

#[export] Instance Truncation_float : Truncation float := fun f =>
  match f with
  | S754_finite s m e => cond_Zopp s (Z.shiftl (Zpos m) e)
  | _ => 0
  end.

#[export] Instance Truncation_Q : Truncation Q := fun q =>
  Z.quot (Qnum q) (Zpos (Qden q)).

(** A number assigned to an [unsigned long] attribute: its integer part
    modulo 2^32. *)
Definition unsigned_long {N : Type} `{Truncation N} (x : N) : Z :=
  truncate x mod 2 ^ 32.

(** [canvas.width] and [canvas.height] after an assignment.  Both reflect
    a content attribute: the [unsigned long] is kept when it is at most
    2147483647 and replaced by the default of the attribute otherwise. *)
Definition canvas_dimension {N : Type} `{Truncation N} (default : Z) (x : N) : Z :=
  let n := unsigned_long x in
  if n <=? 2147483647 then n else default.

Definition is_nan (f : float) : bool :=
  match f with S754_nan => true | _ => false end.

(** [Math.sqrt] *)
Definition Math_sqrt (f : float) : float := SFsqrt prec emax f.

(** [Math.min] and [Math.max] on two arguments: NaN if either argument is
    NaN, and [-0] counts as smaller than [+0]. *)
Definition Math_min (a b : float) : float :=
  match SFcompare a b with
  | None => S754_nan
  | Some Lt => a
  | Some Gt => b
  | Some Eq => match a with S754_zero true => a | _ => b end
  end.

Definition Math_max (a b : float) : float :=
  match SFcompare a b with
  | None => S754_nan
  | Some Lt => b
  | Some Gt => a
  | Some Eq => match a with S754_zero false => a | _ => b end
  end.

(** The two decimal literals of [getFontSize], as the nearest doubles. *)
Definition lit_0_55 : float := S754_finite false 4953959590107546 (-53).
Definition lit_1_2 : float := S754_finite false 5404319552844595 (-52).

(* ================================================================== *)
(** ** JavaScript strings *)

Definition code_unit := N.
Definition jsstring := list code_unit.

(** An ASCII literal as a sequence of code units. *)
Definition lit (s : string) : jsstring :=
  List.map N_of_ascii (list_ascii_of_string s).

Fixpoint str_eqb (a b : jsstring) : bool :=
  match a, b with
  | [], [] => true
  | c :: a', d :: b' => N.eqb c d && str_eqb a' b'
  | _, _ => false
  end.

(** Truthiness of a string value: the empty string is falsy. *)
Definition nonempty (s : jsstring) : bool :=
  match s with [] => false | _ :: _ => true end.

(** [Number.prototype.toString] on a non-negative integer. *)
Definition toString (n : N) : jsstring :=
  lit (NilEmpty.string_of_uint (N.to_uint n)).

(** [Array.prototype.join] on strings. *)
Fixpoint join (sep : jsstring) (l : list jsstring) : jsstring :=
  match l with
  | [] => []
  | [s] => s
  | s :: rest => s ++ sep ++ join sep rest
  end.

(** The class [\s] of regular expressions, which is also what [trim]
    removes: WhiteSpace and LineTerminator code units. *)
Definition isWhiteSpace (c : code_unit) : bool :=
  ((9 <=? c) && (c <=? 13) || (c =? 32) || (c =? 160) || (c =? 5760)
   || (8192 <=? c) && (c <=? 8202) || (c =? 8232) || (c =? 8233)
   || (c =? 8239) || (c =? 8287) || (c =? 12288) || (c =? 65279))%N.

Fixpoint dropSpaces (s : jsstring) : jsstring :=
  match s with
  | c :: r => if isWhiteSpace c then dropSpaces r else s
  | [] => []
  end.

Fixpoint countSpaces (s : jsstring) : nat :=
  match s with
  | c :: r => if isWhiteSpace c then S (countSpaces r) else O
  | [] => O
  end.

(** [String.prototype.trim] *)
Definition trim (s : jsstring) : jsstring :=
  rev (dropSpaces (rev (dropSpaces s))).

Fixpoint startsWith (p s : jsstring) : bool :=
  match p, s with
  | [], _ => true
  | c :: p', d :: s' => N.eqb c d && startsWith p' s'
  | _ :: _, [] => false
  end.

(** [s.split(',')[1]]: the text between the first and the second comma,
    [None] (undefined) when there is no comma. *)
Fixpoint untilComma (s : jsstring) : jsstring :=
  match s with
  | [] => []
  | c :: r => if N.eqb c 44 then [] else c :: untilComma r
  end.

Fixpoint split_comma_1 (s : jsstring) : option jsstring :=
  match s with
  | [] => None
  | c :: r => if N.eqb c 44 then Some (untilComma r) else split_comma_1 r
  end.

(* ================================================================== *)
(** ** Exceptions

    Code that may throw returns [Exc A]; [try_catch] is [try { } catch]. *)

Inductive Exc (A : Type) : Type :=
| Ok (a : A)
| Throw.
Arguments Ok {A} a.
Arguments Throw {A}.

Definition bind {A B} (m : Exc A) (k : A -> Exc B) : Exc B :=
  match m with Ok a => k a | Throw => Throw end.

Definition try_catch {A} (body : Exc A) (handler : Exc A) : Exc A :=
  match body with Ok a => Ok a | Throw => handler end.

Notation "x <- m ;; k" := (bind m (fun x => k))
  (at level 61, m at next level, right associativity).

(* ================================================================== *)
(** ** The shared type declarations *)

Record TranslatedItem := {
  original : jsstring;
  translated : jsstring;
  box_2d : list float   (* [ymin, xmin, ymax, xmax] normalized to 1000 *)
}.

Record TranslationResult := {
  items : list TranslatedItem;
  summary : jsstring
}.

Module HistoryItem.
Record t := mk {
  id : jsstring;
  timestamp : N;
  summary : jsstring;
  fullText : jsstring
}.
End HistoryItem.

Inductive AppState := IDLE | SCANNING | ERROR.

Definition AppState_eqb (a b : AppState) : bool :=
  match a, b with
  | IDLE, IDLE | SCANNING, SCANNING | ERROR, ERROR => true
  | _, _ => false
  end.

(* ================================================================== *)
(** ** services/geminiService.ts *)

(** The regular expression [/```json\s*|\s*```/]: the length of its match
    at the start of [s], if there is one.  The first alternative is tried
    first; in both, [\s*] is greedy and what follows it cannot start with
    white space, so it takes the whole run. *)
Definition fenceMatch (s : jsstring) : option nat :=
  if startsWith (lit "```json") s then
    Some (7 + countSpaces (skipn 7 s))%nat
  else if startsWith (lit "```") (dropSpaces s) then
    Some (countSpaces s + 3)%nat
  else None.

(** [text.replace(/```json\s*|\s*```/g, '')]: scan from the left; where the
    expression matches, drop the match and go on after it; otherwise keep
    the code unit.  [skip] counts the code units of the current match that
    are still to be dropped. *)
Fixpoint replaceFences (skip : nat) (s : jsstring) : jsstring :=
  match s with
  | [] => []
  | c :: r =>
      match skip with
      | S k => replaceFences k r
      | O =>
          match fenceMatch s with
          | Some n => replaceFences (Nat.pred n) r
          | None => c :: replaceFences O r
          end
      end
  end.

Definition cleanText (text : jsstring) : jsstring :=
  trim (replaceFences O text).

Definition emptyResponseResult : TranslationResult :=
  {| items := [];
     summary := lit "Could not process image (Safety filter or Network error)." |}.

Definition invalidFormatResult : TranslationResult :=
  {| items := [];
     summary := lit "Translation failed: Invalid response format." |}.

Definition connectionErrorResult : TranslationResult :=
  {| items := [];
     summary := lit "Connection error. Please check your internet." |}.

(** What [await] of a call yields to [handleFrameCapture]: a value typed
    [TranslationResult] is either an object or, at run time, something
    falsy such as [null] ([None]).  [JSON.parse] is cast without a check:
    a truthy value of another shape, which the cast lets through, has no
    counterpart here, and no statement below is about one. *)
Definition ResultValue := option TranslationResult.

Section TranslateImage.

(** [JSON.parse] is a built-in: it throws a SyntaxError or returns the
    parsed value, which the code casts to [TranslationResult]. *)
Variable JSON_parse : jsstring -> Exc ResultValue.

(** [response] is what [await ai.models.generateContent(...)] followed by
    [response.text] gives: a throw (transport or API failure), or the text,
    which may be [undefined] ([None]). *)
Definition translateImage (response : Exc (option jsstring)) : Exc ResultValue :=
  try_catch
    (text <- response ;;
     match text with
     | None | Some [] => Ok (Some emptyResponseResult)
     | Some text =>
         try_catch
           (JSON_parse (cleanText text))
           (Ok (Some invalidFormatResult))
     end)
    (Ok (Some connectionErrorResult)).

End TranslateImage.

Definition translateImageOffline : Exc ResultValue :=
  Ok (Some
    {| items := [
         {| original := [12458; 12501; 12521; 12452; 12531]%N;
            translated := [50724; 54532; 46972; 51064; 32; 47784; 46300]%N;
            box_2d := List.map float_of_Z [350; 200; 500; 800] |};
         {| original := [25509; 32154; 12394; 12375]%N;
            translated := [50672; 44208; 32; 49345; 53468; 32; 50577; 54840]%N;
            box_2d := List.map float_of_Z [550; 300; 650; 700] |} ];
       summary := lit "Using downloaded language packs. (Simulation: Real local inference would run here using the stored models)." |}).

(* ================================================================== *)
(** ** The camera feed component: content rectangle and frame capture *)

Module Rect.
Record t (N : Type) := mk { x : N; y : N; w : N; h : N }.
Arguments mk {N} x y w h.
Arguments x {N} t.
Arguments y {N} t.
Arguments w {N} t.
Arguments h {N} t.
End Rect.

Record Element (N : Type) := { offsetWidth : N; offsetHeight : N }.
Arguments offsetWidth {N} e.
Arguments offsetHeight {N} e.

Record Image (N : Type) := { naturalWidth : N; naturalHeight : N }.
Arguments naturalWidth {N} i.
Arguments naturalHeight {N} i.

Record Video (N : Type) := {
  readyState : Z;
  videoWidth : N;
  videoHeight : N;
  videoElement : Element N
}.
Arguments readyState {N} v.
Arguments videoWidth {N} v.
Arguments videoHeight {N} v.
Arguments videoElement {N} v.

(** What [capture] does to the canvas before encoding it: the size the
    canvas has after the two assignments, which is a pair of integers, and
    the arguments of [drawImage]. *)
Record Shot (N : Type) := {
  canvas_width : Z;
  canvas_height : Z;
  sx : N; sy : N; sw : N; sh : N;    (* source rectangle in the video *)
  dx : N; dy : N; dw : N; dh : N     (* destination rectangle in the canvas *)
}.
Arguments canvas_width {N} s.
Arguments canvas_height {N} s.
Arguments sx {N} s.
Arguments sy {N} s.
Arguments sw {N} s.
Arguments sh {N} s.
Arguments dx {N} s.
Arguments dy {N} s.
Arguments dw {N} s.
Arguments dh {N} s.

Section Geometry.

Context {N : Type} `{Number N} `{Truncation N}.
Local Open Scope js_scope.

(** [updateContentRect]: the rectangle passed to [onContentRectChange], or
    [None] when the function returns without calling it.  [container] is
    [containerRef.current], [hasCallback] tells whether the
    [onContentRectChange] prop is there, [staticImage] is the truthiness of
    the prop, [img] and [video] are [imgRef.current] and whether
    [videoRef.current] is set. *)
Definition updateContentRect (container : option (Element N)) (hasCallback : bool)
    (staticImage : bool) (img : option (Image N)) (video : bool) : option (Rect.t N) :=
  match container, hasCallback with
  | Some container, true =>
      let cw := offsetWidth container in
      let ch := offsetHeight container in
      match staticImage, img with
      | true, Some img =>
          if naturalWidth img === of_Z 0 then None
          else
            let imgAspect := naturalWidth img / naturalHeight img in
            let containerAspect := cw / ch in
            if containerAspect > imgAspect then
              let rh := ch in
              let rw := ch * imgAspect in
              let ry := of_Z 0 in
              let rx := (cw - rw) / of_Z 2 in
              Some (Rect.mk rx ry rw rh)
            else
              let rw := cw in
              let rh := cw / imgAspect in
              let rx := of_Z 0 in
              let ry := (ch - rh) / of_Z 2 in
              Some (Rect.mk rx ry rw rh)
      | _, _ =>
          if video then Some (Rect.mk (of_Z 0) (of_Z 0) cw ch) else None
      end
  | _, _ => None
  end.

(** The live branch of [capture], up to the call of [drawImage]: [None]
    when the video is not ready or an element has no size. *)
Definition captureLive (video : Video N) : option (Shot N) :=
  if (2 <=? readyState video)%Z && (videoWidth video > of_Z 0)
     && (videoHeight video > of_Z 0) then
    let vw := videoWidth video in
    let vh := videoHeight video in
    let cw := offsetWidth (videoElement video) in
    let ch := offsetHeight (videoElement video) in
    if (cw === of_Z 0) || (ch === of_Z 0) then None
    else
      let videoAspect := vw / vh in
      let containerAspect := cw / ch in
      let '(sx, sy, sw, sh) :=
        if containerAspect > videoAspect then
          let sw := vw in
          let sh := vw / containerAspect in
          let sx := of_Z 0 in
          let sy := (vh - sh) / of_Z 2 in
          (sx, sy, sw, sh)
        else
          let sh := vh in
          let sw := vh * containerAspect in
          let sx := (vw - sw) / of_Z 2 in
          let sy := of_Z 0 in
          (sx, sy, sw, sh) in
      Some {| canvas_width := canvas_dimension 300 sw;
              canvas_height := canvas_dimension 150 sh;
              sx := sx; sy := sy; sw := sw; sh := sh;
              dx := of_Z 0; dy := of_Z 0; dw := sw; dh := sh |}
  else None.

End Geometry.

(** What [capture] hands to [onFrameCapture]. *)
Inductive Captured (N : Type) :=
| StaticFrame (image : jsstring)     (* the static image, unchanged *)
| LiveFrame (shot : Shot N).         (* the canvas after [drawImage], to be encoded *)
Arguments StaticFrame {N} image.
Arguments LiveFrame {N} shot.

(** [capture]: [staticImage] is the prop, [video] is [videoRef.current],
    [canvas] tells whether [canvasRef.current] is set and [ctx] whether
    [getContext('2d')] gave a context. *)
Definition capture {N} `{Number N} `{Truncation N} (staticImage : option jsstring)
    (video : option (Video N)) (canvas ctx : bool) : option (Captured N) :=
  match staticImage with
  | Some (c :: s) => Some (StaticFrame (c :: s))
  | _ =>
      match video, canvas with
      | Some video, true =>
          match captureLive video with
          | Some shot => if ctx then Some (LiveFrame shot) else None
          | None => None
          end
      | _, _ => None
      end
  end.

(* ================================================================== *)
(** ** components/Overlay.tsx *)

(** Where a box is drawn: pixel values when a content rectangle is known,
    percentages of the viewport otherwise. *)
Inductive Placement (N : Type) :=
| Pixels (top left width height : N)
| Percent (top left width height : N).
Arguments Pixels {N} top left width height.
Arguments Percent {N} top left width height.

(** The body of [data.items.map]: [None] when the item is skipped. *)
Definition placeBox {N} `{Number N} (contentRect : option (Rect.t N))
    (box_2d : list N) : option (Placement N) :=
  match box_2d with
  | ymin :: xmin :: ymax :: xmax :: _ =>
      Some
        match contentRect with
        | Some contentRect =>
            let top := (Rect.y contentRect + (ymin / of_Z 1000) * Rect.h contentRect)%js in
            let left := (Rect.x contentRect + (xmin / of_Z 1000) * Rect.w contentRect)%js in
            let height := (((ymax - ymin) / of_Z 1000) * Rect.h contentRect)%js in
            let width := (((xmax - xmin) / of_Z 1000) * Rect.w contentRect)%js in
            Pixels top left width height
        | None =>
            let top := (ymin / of_Z 10)%js in
            let left := (xmin / of_Z 10)%js in
            let height := ((ymax - ymin) / of_Z 10)%js in
            let width := ((xmax - xmin) / of_Z 10)%js in
            Percent top left width height
        end
  | _ => None
  end.

(** A missing array element is [undefined], which arithmetic turns into NaN. *)
Definition element (box : list float) (i : nat) : float := nth i box S754_nan.

(** [text.length || 1] *)
Definition lengthOr1 (text : jsstring) : float :=
  match text with
  | [] => float_of_Z 1
  | _ => float_of_Z (Z.of_nat (List.length text))
  end.

Section FontSize.

(** The two props [getFontSize] closes over. *)
Variable contentRect : option (Rect.t float).
Variable textSizeMultiplier : float.

Local Open Scope js_scope.

(** [size] just before the clamp. *)
Definition scaledSize (box : list float) (text : jsstring) (rectH : float) : float :=
  let ymin := element box 0 in
  let xmin := element box 1 in
  let ymax := element box 2 in
  let xmax := element box 3 in
  let h_px := ((ymax - ymin) / of_Z 1000) * rectH in
  let w_px := ((xmax - xmin) / of_Z 1000)
              * (match contentRect with Some r => Rect.w r | None => rectH end) in
  let len := lengthOr1 text in
  let maxH := h_px * lit_0_55 in
  let area := w_px * h_px in
  let densitySize := Math_sqrt (area / len) * lit_1_2 in
  let size := Math_min maxH densitySize in
  let size := size * textSizeMultiplier in
  size.

(** [getFontSize]: the number that is printed in front of ["px"]. *)
Definition getFontSize (box : list float) (text : jsstring) (rectH : float) : float :=
  Math_max (of_Z 10) (Math_min (scaledSize box text rectH) (of_Z 42)).

End FontSize.

(* ================================================================== *)
(** ** App.tsx: the application state *)

Inductive FacingMode := environment | user.

(** A media stream is opaque; a handle stands for it. *)
Definition MediaStream := nat.

(** The callbacks that [App] passes to [setTimeout]. *)
Inductive TimerCallback :=
| SetIsAutoMode (b : bool)
| SetAppState (a : AppState).

Record Timer := { delay : Z; callback : TimerCallback }.

(** An inference call that [handleFrameCapture] is awaiting, with the values
    of the render it was created in that it still reads afterwards. *)
Record Pending := {
  closure_isAutoMode : bool;
  closure_autoSave : bool;
  closure_useOfflineMode : bool;
  sentImage : jsstring
}.

(** The [useState] cells of [App] that the handlers below read or write,
    then what lives outside React: the history item of the persistent
    store (before its JSON encoding), the timers that are set and the
    calls that are awaited. *)
Record App := {
  isAutoMode : bool;
  appState : AppState;
  translationData : option TranslationResult;
  cameraFacing : FacingMode;
  screenStream : option MediaStream;
  isScreenShareSupported : bool;
  staticImage : option jsstring;
  contentRect : option (Rect.t float);
  isSettingsOpen : bool;
  history : list HistoryItem.t;
  autoSave : bool;
  useOfflineMode : bool;
  localStorage_history : option (list HistoryItem.t);
  timers : list Timer;
  inflight : list Pending
}.

(** The state once mounted, in a browser that can share the screen and
    with nothing in the store. *)
Definition initialApp : App := {|
  isAutoMode := false;
  appState := IDLE;
  translationData := None;
  cameraFacing := environment;
  screenStream := None;
  isScreenShareSupported := true;
  staticImage := None;
  contentRect := None;
  isSettingsOpen := false;
  history := [];
  autoSave := true;
  useOfflineMode := false;
  localStorage_history := None;
  timers := [];
  inflight := []
|}.

Definition setIsAutoMode (v : bool) (s : App) : App :=
  {| isAutoMode := v; appState := appState s;
     translationData := translationData s; cameraFacing := cameraFacing s;
     screenStream := screenStream s;
     isScreenShareSupported := isScreenShareSupported s;
     staticImage := staticImage s; contentRect := contentRect s;
     isSettingsOpen := isSettingsOpen s; history := history s;
     autoSave := autoSave s; useOfflineMode := useOfflineMode s;
     localStorage_history := localStorage_history s;
     timers := timers s; inflight := inflight s |}.

Definition setAppState (v : AppState) (s : App) : App :=
  {| isAutoMode := isAutoMode s; appState := v;
     translationData := translationData s; cameraFacing := cameraFacing s;
     screenStream := screenStream s;
     isScreenShareSupported := isScreenShareSupported s;
     staticImage := staticImage s; contentRect := contentRect s;
     isSettingsOpen := isSettingsOpen s; history := history s;
     autoSave := autoSave s; useOfflineMode := useOfflineMode s;
     localStorage_history := localStorage_history s;
     timers := timers s; inflight := inflight s |}.

Definition setTranslationData (v : option TranslationResult) (s : App) : App :=
  {| isAutoMode := isAutoMode s; appState := appState s;
     translationData := v; cameraFacing := cameraFacing s;
     screenStream := screenStream s;
     isScreenShareSupported := isScreenShareSupported s;
     staticImage := staticImage s; contentRect := contentRect s;
     isSettingsOpen := isSettingsOpen s; history := history s;
     autoSave := autoSave s; useOfflineMode := useOfflineMode s;
     localStorage_history := localStorage_history s;
     timers := timers s; inflight := inflight s |}.

Definition setCameraFacing (v : FacingMode) (s : App) : App :=
  {| isAutoMode := isAutoMode s; appState := appState s;
     translationData := translationData s; cameraFacing := v;
     screenStream := screenStream s;
     isScreenShareSupported := isScreenShareSupported s;
     staticImage := staticImage s; contentRect := contentRect s;
     isSettingsOpen := isSettingsOpen s; history := history s;
     autoSave := autoSave s; useOfflineMode := useOfflineMode s;
     localStorage_history := localStorage_history s;
     timers := timers s; inflight := inflight s |}.

Definition setScreenStream (v : option MediaStream) (s : App) : App :=
  {| isAutoMode := isAutoMode s; appState := appState s;
     translationData := translationData s; cameraFacing := cameraFacing s;
     screenStream := v;
     isScreenShareSupported := isScreenShareSupported s;
     staticImage := staticImage s; contentRect := contentRect s;
     isSettingsOpen := isSettingsOpen s; history := history s;
     autoSave := autoSave s; useOfflineMode := useOfflineMode s;
     localStorage_history := localStorage_history s;
     timers := timers s; inflight := inflight s |}.

Definition setStaticImage (v : option jsstring) (s : App) : App :=
  {| isAutoMode := isAutoMode s; appState := appState s;
     translationData := translationData s; cameraFacing := cameraFacing s;
     screenStream := screenStream s;
     isScreenShareSupported := isScreenShareSupported s;
     staticImage := v; contentRect := contentRect s;
     isSettingsOpen := isSettingsOpen s; history := history s;
     autoSave := autoSave s; useOfflineMode := useOfflineMode s;
     localStorage_history := localStorage_history s;
     timers := timers s; inflight := inflight s |}.

Definition setContentRect (v : option (Rect.t float)) (s : App) : App :=
  {| isAutoMode := isAutoMode s; appState := appState s;
     translationData := translationData s; cameraFacing := cameraFacing s;
     screenStream := screenStream s;
     isScreenShareSupported := isScreenShareSupported s;
     staticImage := staticImage s; contentRect := v;
     isSettingsOpen := isSettingsOpen s; history := history s;
     autoSave := autoSave s; useOfflineMode := useOfflineMode s;
     localStorage_history := localStorage_history s;
     timers := timers s; inflight := inflight s |}.

Definition setIsSettingsOpen (v : bool) (s : App) : App :=
  {| isAutoMode := isAutoMode s; appState := appState s;
     translationData := translationData s; cameraFacing := cameraFacing s;
     screenStream := screenStream s;
     isScreenShareSupported := isScreenShareSupported s;
     staticImage := staticImage s; contentRect := contentRect s;
     isSettingsOpen := v; history := history s;
     autoSave := autoSave s; useOfflineMode := useOfflineMode s;
     localStorage_history := localStorage_history s;
     timers := timers s; inflight := inflight s |}.

(** [setHistory] together with the write of the new value to the store,
    the write succeeding.  The path on which [setItem] throws and the
    history is set all the same is [AppEventStoreFull] below. *)
Definition setHistoryAndStore (v : list HistoryItem.t) (s : App) : App :=
  {| isAutoMode := isAutoMode s; appState := appState s;
     translationData := translationData s; cameraFacing := cameraFacing s;
     screenStream := screenStream s;
     isScreenShareSupported := isScreenShareSupported s;
     staticImage := staticImage s; contentRect := contentRect s;
     isSettingsOpen := isSettingsOpen s; history := v;
     autoSave := autoSave s; useOfflineMode := useOfflineMode s;
     localStorage_history := Some v;
     timers := timers s; inflight := inflight s |}.

Definition withTimers (v : list Timer) (s : App) : App :=
  {| isAutoMode := isAutoMode s; appState := appState s;
     translationData := translationData s; cameraFacing := cameraFacing s;
     screenStream := screenStream s;
     isScreenShareSupported := isScreenShareSupported s;
     staticImage := staticImage s; contentRect := contentRect s;
     isSettingsOpen := isSettingsOpen s; history := history s;
     autoSave := autoSave s; useOfflineMode := useOfflineMode s;
     localStorage_history := localStorage_history s;
     timers := v; inflight := inflight s |}.

Definition withInflight (v : list Pending) (s : App) : App :=
  {| isAutoMode := isAutoMode s; appState := appState s;
     translationData := translationData s; cameraFacing := cameraFacing s;
     screenStream := screenStream s;
     isScreenShareSupported := isScreenShareSupported s;
     staticImage := staticImage s; contentRect := contentRect s;
     isSettingsOpen := isSettingsOpen s; history := history s;
     autoSave := autoSave s; useOfflineMode := useOfflineMode s;
     localStorage_history := localStorage_history s;
     timers := timers s; inflight := v |}.

(** [setTimeout(callback, delay)] *)
Definition setTimeout (cb : TimerCallback) (ms : Z) (s : App) : App :=
  withTimers (timers s ++ [{| delay := ms; callback := cb |}]) s.

(** Truthiness of the [staticImage] cell. *)
Definition truthy (o : option jsstring) : bool :=
  match o with Some (_ :: _) => true | _ => false end.

Definition isEmpty {A} (l : list A) : bool :=
  match l with [] => true | _ :: _ => false end.

(* ================================================================== *)
(** ** App.tsx: the handlers *)

(** The text kept for a result: the items as [original -> translated]
    lines, or the summary alone. *)
Definition fullTextOf (result : TranslationResult) : jsstring :=
  match items result with
  | _ :: _ =>
      join [10%N]
        (List.map (fun i => original i ++ lit " -> " ++ translated i) (items result))
  | [] => lit "[Summary Only] " ++ summary result
  end.

(** [Array.prototype.slice(start)] for [start >= 0]: the elements from
    index [start] on. *)
Definition slice {A} (start : nat) (l : list A) : list A := skipn start l.

(** The function that [saveToHistory] passes to [setHistory]; [now] is
    what [Date.now()] returns, taken to be the same at both calls. *)
Definition historyUpdate (now : N) (result : TranslationResult)
    (fullText : jsstring) (prev : list HistoryItem.t) : option (list HistoryItem.t) :=
  if match prev with
     | p :: _ => str_eqb (HistoryItem.fullText p) fullText
                 && str_eqb (HistoryItem.summary p) (summary result)
     | [] => false
     end
  then None   (* [return prev]: nothing is written *)
  else
    let newItem :=
      HistoryItem.mk (toString now) now
        (if nonempty (summary result) then summary result else lit "No summary")
        fullText in
    let newHistory := slice 50 (newItem :: prev) in
    Some newHistory.

Definition saveToHistory (now : N) (result : TranslationResult) (s : App) : App :=
  if isEmpty (items result) && negb (nonempty (summary result)) then s
  else
    let fullText := fullTextOf result in
    match historyUpdate now result fullText (history s) with
    | None => s
    | Some newHistory => setHistoryAndStore newHistory s
    end.

Definition handleManualSave (now : N) (s : App) : App :=
  match translationData s with
  | Some data => saveToHistory now data s
  | None => s
  end.

Definition clearStaticImage (s : App) : App :=
  setContentRect None (setTranslationData None (setStaticImage None s)).

(** [handleFrameCapture] up to its [await]: the guard, the freeze of the
    frame, the move to [SCANNING] and the call, which is now awaited. *)
Definition handleFrameCapture_call (base64Image : jsstring) (s : App) : App :=
  if AppState_eqb (appState s) SCANNING || isSettingsOpen s then s
  else
    let s1 :=
      if negb (isAutoMode s) && negb (truthy (staticImage s))
      then setStaticImage (Some base64Image) s
      else s in
    let s2 := setAppState SCANNING s1 in
    withInflight
      (inflight s2 ++ [{| closure_isAutoMode := isAutoMode s;
                          closure_autoSave := autoSave s;
                          closure_useOfflineMode := useOfflineMode s;
                          sentImage := base64Image |}]) s2.

(** [handleFrameCapture] after its [await]: [awaited] is what the call
    gave, a value or a throw. *)
Definition handleFrameCapture_resume (now : N) (c : Pending)
    (awaited : Exc ResultValue) (s : App) : App :=
  match awaited with
  | Ok (Some result) =>
      let s1 := setTranslationData (Some result) s in
      let s2 :=
        if closure_autoSave c && negb (isEmpty (items result))
        then saveToHistory now result s1
        else s1 in
      setAppState IDLE s2
  | Ok None | Throw =>
      let s1 := setAppState ERROR s in
      if closure_isAutoMode c
      then setTimeout (SetAppState IDLE) 3000 s1
      else setTimeout (SetAppState IDLE) 2000 s1
  end.

Definition toggleAutoMode (s : App) : App :=
  let s1 := if truthy (staticImage s) then clearStaticImage s else s in
  let s2 := setIsAutoMode (negb (isAutoMode s1)) s1 in
  if isAutoMode s then setAppState IDLE s2 else s2.

Definition handleManualScan (s : App) : App :=
  if negb (isAutoMode s) && AppState_eqb (appState s) IDLE
  then setTimeout (SetIsAutoMode false) 100 (setIsAutoMode true s)
  else s.

Definition toggleCamera (s : App) : App :=
  setCameraFacing
    (match cameraFacing s with environment => user | user => environment end) s.

(** [toggleScreenShare]; [granted] is what [getDisplayMedia] gives when it
    is called: a stream, or [None] when it rejects. *)
Definition toggleScreenShare (granted : option MediaStream) (s : App) : App :=
  if negb (isScreenShareSupported s) then s
  else
    match screenStream s with
    | Some _ => setScreenStream None s
    | None =>
        match granted with
        | Some stream => setScreenStream (Some stream) s
        | None => s
        end
    end.

(** [handleFileUpload] with the [onload] of its reader; [dataUrl] is the
    reader's result, [None] when no file was chosen. *)
Definition handleFileUpload (dataUrl : option jsstring) (s : App) : App :=
  match dataUrl with
  | Some (c :: r) =>
      let base64 := split_comma_1 (c :: r) in
      setIsAutoMode false (setTranslationData None (setStaticImage base64 s))
  | _ => s
  end.

Definition runTimer (cb : TimerCallback) (s : App) : App :=
  match cb with
  | SetIsAutoMode b => setIsAutoMode b s
  | SetAppState a => setAppState a s
  end.

(* ================================================================== *)
(** ** The application as a transition system

    One event is one turn of the event loop.  The handlers are made anew
    at each render, and [handleFrameCapture], a [useCallback] hook, lists
    every cell it reads among its dependencies: a handler sees the state of
    the latest render.  Only the continuation of [handleFrameCapture] reads
    older values, those kept in [Pending]. *)

Inductive Event :=
| ClickAutoScan                      (* the Auto Scan switch *)
| ClickScan                          (* the main trigger button *)
| ClickFlipCamera
| ClickShareScreen (granted : option MediaStream)
| ScreenTrackEnded
| PickFile (dataUrl : option jsstring)   (* the Gallery button, then a file *)
| ClickCloseImage
| ClickClearText
| ClickSettings
| CloseSettings
| ClickSave (now : N)                (* a save button of the overlay *)
| FrameCaptured (error activeStream : bool) (frame : jsstring)
                                     (* the capture hook of the camera feed *)
| TimerFired (i : nat)
| InferenceSettled (i : nat) (response : Exc (option jsstring)) (now : N).

(** The condition under which the camera feed runs [capture], at once and
    then every three seconds: [isActive && !error && activeStream &&
    !staticImage], where [isActive] is the [isAutoMode] of [App]. *)
Definition captureHookArmed (isActive error activeStream : bool)
    (staticImage : option jsstring) : bool :=
  isActive && negb error && activeStream && negb (truthy staticImage).

Fixpoint removeNth {A} (i : nat) (l : list A) : list A :=
  match i, l with
  | _, [] => []
  | O, _ :: r => r
  | S k, a :: r => a :: removeNth k r
  end.

Definition isSome {A} (o : option A) : bool :=
  match o with Some _ => true | None => false end.

Section Dispatch.

Variable JSON_parse : jsstring -> Exc ResultValue.

(** [dispatch s e] is the state after [e], or [None] when [e] cannot
    happen in [s]: the control is hidden, disabled or covered by the
    settings surface, the hook is not armed, or there is no such timer or
    call. *)
Definition dispatch (s : App) (e : Event) : option App :=
  match e with
  | ClickAutoScan =>
      if negb (isSettingsOpen s) && negb (truthy (staticImage s))
      then Some (toggleAutoMode s) else None
  | ClickScan =>
      if negb (isSettingsOpen s) && negb (isAutoMode s)
      then Some (handleManualScan s) else None
  | ClickFlipCamera =>
      if negb (isSettingsOpen s) && negb (isSome (screenStream s))
         && negb (truthy (staticImage s))
      then Some (toggleCamera s) else None
  | ClickShareScreen granted =>
      if negb (isSettingsOpen s) && isScreenShareSupported s
         && negb (truthy (staticImage s))
      then Some (toggleScreenShare granted s) else None
  | ScreenTrackEnded =>
      if isSome (screenStream s) then Some (setScreenStream None s) else None
  | PickFile dataUrl =>
      if negb (isSettingsOpen s) && negb (AppState_eqb (appState s) ERROR)
         && negb (truthy (staticImage s)) && negb (isSome (translationData s))
      then Some (handleFileUpload dataUrl s) else None
  | ClickCloseImage =>
      if negb (isSettingsOpen s) && truthy (staticImage s)
      then Some (clearStaticImage s) else None
  | ClickClearText =>
      if negb (isSettingsOpen s) && negb (AppState_eqb (appState s) ERROR)
         && (truthy (staticImage s) || isSome (translationData s))
      then Some (setTranslationData None s) else None
  | ClickSettings =>
      if negb (isSettingsOpen s) then Some (setIsSettingsOpen true s) else None
  | CloseSettings =>
      if isSettingsOpen s then Some (setIsSettingsOpen false s) else None
  | ClickSave now =>
      match translationData s with
      | Some data =>
          if negb (isSettingsOpen s) && nonempty (summary data)
          then Some (handleManualSave now s) else None
      | None => None
      end
  | FrameCaptured error activeStream frame =>
      if captureHookArmed (isAutoMode s) error activeStream (staticImage s)
      then Some (handleFrameCapture_call frame s) else None
  | TimerFired i =>
      match nth_error (timers s) i with
      | Some t => Some (runTimer (callback t) (withTimers (removeNth i (timers s)) s))
      | None => None
      end
  | InferenceSettled i response now =>
      match nth_error (inflight s) i with
      | Some c =>
          let awaited :=
            if closure_useOfflineMode c then translateImageOffline
            else translateImage JSON_parse response in
          Some (handleFrameCapture_resume now c awaited
                  (withInflight (removeNth i (inflight s)) s))
      | None => None
      end
  end.

Fixpoint run (s : App) (trace : list Event) : option App :=
  match trace with
  | [] => Some s
  | e :: rest =>
      match dispatch s e with
      | Some s' => run s' rest
      | None => None
      end
  end.

End Dispatch.

(* ================================================================== *)
(** ** App.tsx: preferences, language packs and what is kept of them *)

Module LanguagePack.
Record t := mk {
  id : jsstring;
  name : jsstring;
  size : jsstring;
  isDownloaded : bool;
  description : jsstring
}.
End LanguagePack.

Definition INITIAL_PACKS : list LanguagePack.t := [
  LanguagePack.mk (lit "jp_ocr") (lit "Japanese OCR Model") (lit "45 MB") false
    (lit "Optical character recognition");
  LanguagePack.mk (lit "kr_nmt") (lit "Korean Translation Model") (lit "120 MB") false
    (lit "Neural machine translation")
].

(** [String(b)] for a boolean. *)
Definition String_of_bool (b : bool) : jsstring :=
  if b then lit "true" else lit "false".

(** The items of the persistent store that hold the preferences; the item
    of the packs is kept before its JSON encoding, as the item of the
    history is in [App]. *)
Record Store := {
  jp_kr_autosave : option jsstring;
  jp_kr_packs : option (list LanguagePack.t);
  jp_kr_offline_pref : option jsstring
}.

(** [App] with the cell of the language packs and the rest of the store. *)
Record AppSettings := {
  core : App;
  languagePacks : list LanguagePack.t;
  localStorage : Store
}.

Definition setAutoSave (v : bool) (s : App) : App :=
  {| isAutoMode := isAutoMode s; appState := appState s;
     translationData := translationData s; cameraFacing := cameraFacing s;
     screenStream := screenStream s;
     isScreenShareSupported := isScreenShareSupported s;
     staticImage := staticImage s; contentRect := contentRect s;
     isSettingsOpen := isSettingsOpen s; history := history s;
     autoSave := v; useOfflineMode := useOfflineMode s;
     localStorage_history := localStorage_history s;
     timers := timers s; inflight := inflight s |}.

Definition setUseOfflineMode (v : bool) (s : App) : App :=
  {| isAutoMode := isAutoMode s; appState := appState s;
     translationData := translationData s; cameraFacing := cameraFacing s;
     screenStream := screenStream s;
     isScreenShareSupported := isScreenShareSupported s;
     staticImage := staticImage s; contentRect := contentRect s;
     isSettingsOpen := isSettingsOpen s; history := history s;
     autoSave := autoSave s; useOfflineMode := v;
     localStorage_history := localStorage_history s;
     timers := timers s; inflight := inflight s |}.

(** [setHistory] as the mount effect uses it: the store is not written. *)
Definition setHistory (v : list HistoryItem.t) (s : App) : App :=
  {| isAutoMode := isAutoMode s; appState := appState s;
     translationData := translationData s; cameraFacing := cameraFacing s;
     screenStream := screenStream s;
     isScreenShareSupported := isScreenShareSupported s;
     staticImage := staticImage s; contentRect := contentRect s;
     isSettingsOpen := isSettingsOpen s; history := v;
     autoSave := autoSave s; useOfflineMode := useOfflineMode s;
     localStorage_history := localStorage_history s;
     timers := timers s; inflight := inflight s |}.

(** The application over a store whose item of the history is [v]. *)
Definition withStoredHistory (v : option (list HistoryItem.t)) (s : App) : App :=
  {| isAutoMode := isAutoMode s; appState := appState s;
     translationData := translationData s; cameraFacing := cameraFacing s;
     screenStream := screenStream s;
     isScreenShareSupported := isScreenShareSupported s;
     staticImage := staticImage s; contentRect := contentRect s;
     isSettingsOpen := isSettingsOpen s; history := history s;
     autoSave := autoSave s; useOfflineMode := useOfflineMode s;
     localStorage_history := v;
     timers := timers s; inflight := inflight s |}.

(** [clearHistory]: the history is emptied and its item removed. *)
Definition clearHistory (s : App) : App :=
  {| isAutoMode := isAutoMode s; appState := appState s;
     translationData := translationData s; cameraFacing := cameraFacing s;
     screenStream := screenStream s;
     isScreenShareSupported := isScreenShareSupported s;
     staticImage := staticImage s; contentRect := contentRect s;
     isSettingsOpen := isSettingsOpen s; history := [];
     autoSave := autoSave s; useOfflineMode := useOfflineMode s;
     localStorage_history := None;
     timers := timers s; inflight := inflight s |}.

Definition toggleAutoSave (f : AppSettings) : AppSettings :=
  let newVal := negb (autoSave (core f)) in
  {| core := setAutoSave newVal (core f);
     languagePacks := languagePacks f;
     localStorage :=
       {| jp_kr_autosave := Some (String_of_bool newVal);
          jp_kr_packs := jp_kr_packs (localStorage f);
          jp_kr_offline_pref := jp_kr_offline_pref (localStorage f) |} |}.

Definition toggleOfflineMode (f : AppSettings) : AppSettings :=
  let newVal := negb (useOfflineMode (core f)) in
  {| core := setUseOfflineMode newVal (core f);
     languagePacks := languagePacks f;
     localStorage :=
       {| jp_kr_autosave := jp_kr_autosave (localStorage f);
          jp_kr_packs := jp_kr_packs (localStorage f);
          jp_kr_offline_pref := Some (String_of_bool newVal) |} |}.

Definition updatePackStatus (id : jsstring) (isDownloaded : bool)
    (f : AppSettings) : AppSettings :=
  let newPacks :=
    List.map
      (fun p =>
         if str_eqb (LanguagePack.id p) id
         then LanguagePack.mk (LanguagePack.id p) (LanguagePack.name p)
                (LanguagePack.size p) isDownloaded (LanguagePack.description p)
         else p)
      (languagePacks f) in
  (* If uninstalling, force offline mode off if required *)
  if negb isDownloaded && useOfflineMode (core f) then
    {| core := setUseOfflineMode false (core f);
       languagePacks := newPacks;
       localStorage :=
         {| jp_kr_autosave := jp_kr_autosave (localStorage f);
            jp_kr_packs := Some newPacks;
            jp_kr_offline_pref := Some (lit "false") |} |}
  else
    {| core := core f;
       languagePacks := newPacks;
       localStorage :=
         {| jp_kr_autosave := jp_kr_autosave (localStorage f);
            jp_kr_packs := Some newPacks;
            jp_kr_offline_pref := jp_kr_offline_pref (localStorage f) |} |}.

(** The mount effect: the cells start from their [useState] values and
    take what the store holds.  [storedHistory] is the item of the
    history. *)
Definition mount (store : Store) (storedHistory : option (list HistoryItem.t))
    : AppSettings :=
  let a0 := withStoredHistory storedHistory initialApp in
  let a1 :=
    match storedHistory with
    | Some h => setHistory h a0
    | None => a0
    end in
  let a2 :=
    match jp_kr_autosave store with
    | Some v => setAutoSave (str_eqb v (lit "true")) a1
    | None => a1
    end in
  let packs :=
    match jp_kr_packs store with
    | Some ps => ps
    | None => INITIAL_PACKS
    end in
  let a3 :=
    match jp_kr_offline_pref store with
    | Some v => setUseOfflineMode (str_eqb v (lit "true")) a2
    | None => a2
    end in
  {| core := a3; languagePacks := packs; localStorage := store |}.

(** [packs.every(p => p.isDownloaded)] *)
Definition allPacksDownloaded (packs : list LanguagePack.t) : bool :=
  forallb LanguagePack.isDownloaded packs.

(** What can happen with the settings open on top of the events of
    [App]: the switches of the Settings and Packs tabs, the bin of an
    installed pack, the end of a download (its interval runs whether the
    surface is open or not) and Clear All.

    [saveToHistory] writes the item of the history inside a [try] and
    returns the new history also when [setItem] throws, the store being
    full: [AppEventStoreFull e] is [e] with that write failing, so that
    the history changes and its item does not.  The writes of the other
    items are not guarded in the source and are taken to succeed. *)
Inductive SettingsEvent :=
| ClickAutoSave
| ClickOfflineMode
| ClickUninstall (id : jsstring)
| DownloadFinished (id : jsstring)
| ClickClearAll
| AppEvent (e : Event)
| AppEventStoreFull (e : Event).

Section SettingsDispatch.

Variable JSON_parse : jsstring -> Exc ResultValue.

Definition settingsDispatch (f : AppSettings) (e : SettingsEvent) : option AppSettings :=
  match e with
  | ClickAutoSave =>
      if isSettingsOpen (core f) then Some (toggleAutoSave f) else None
  | ClickOfflineMode =>
      if isSettingsOpen (core f) && allPacksDownloaded (languagePacks f)
      then Some (toggleOfflineMode f) else None
  | ClickUninstall id =>
      if isSettingsOpen (core f)
         && existsb (fun p => str_eqb (LanguagePack.id p) id
                              && LanguagePack.isDownloaded p) (languagePacks f)
      then Some (updatePackStatus id false f) else None
  | DownloadFinished id => Some (updatePackStatus id true f)
  | ClickClearAll =>
      if isSettingsOpen (core f) && negb (isEmpty (history (core f)))
      then Some {| core := clearHistory (core f);
                   languagePacks := languagePacks f;
                   localStorage := localStorage f |}
      else None
  | AppEvent e =>
      match dispatch JSON_parse (core f) e with
      | Some a => Some {| core := a; languagePacks := languagePacks f;
                          localStorage := localStorage f |}
      | None => None
      end
  | AppEventStoreFull e =>
      match dispatch JSON_parse (core f) e with
      | Some a =>
          Some {| core := withStoredHistory (localStorage_history (core f)) a;
                  languagePacks := languagePacks f;
                  localStorage := localStorage f |}
      | None => None
      end
  end.

Fixpoint settingsRun (f : AppSettings) (trace : list SettingsEvent) : option AppSettings :=
  match trace with
  | [] => Some f
  | e :: rest =>
      match settingsDispatch f e with
      | Some f' => settingsRun f' rest
      | None => None
      end
  end.

End SettingsDispatch.

(* ================================================================== *)
(** ** SettingsModal.tsx: the simulated download

    [downloadProgress] maps the id of a pack to a number.  The code is
    written once over [Number], as the geometry is: at binary64 it is what
    the program computes, at [Q] the exact values of the same sums. *)

Definition Progress (N : Type) := jsstring -> option N.

Definition setProgress {N : Type} (id : jsstring) (v : N) (p : Progress N) : Progress N :=
  fun k => if str_eqb k id then Some v else p k.

Definition deleteProgress {N : Type} (id : jsstring) (p : Progress N) : Progress N :=
  fun k => if str_eqb k id then None else p k.

Section Download.

Context {N : Type} `{Number N}.
Local Open Scope js_scope.

(** [a >= b] on numbers: false when either is NaN. *)
Definition ge (a b : N) : bool := (a > b) || (a === b).

(** [x || 0] on a number: 0 for the falsy numbers, which are the zeros
    and NaN. *)
Definition orZero (x : N) : N :=
  if (x === of_Z 0) || negb (x === x) then of_Z 0 else x.

(** [startDownload] up to its [setInterval]: [None] when it returns at
    once, a download of the pack being under way. *)
Definition startDownload (id : jsstring) (downloadProgress : Progress N)
    : option (Progress N) :=
  match downloadProgress id with
  | Some _ => None
  | None => Some (setProgress id (of_Z 0) downloadProgress)
  end.

(** One run of the callback of the interval; [random] is what
    [Math.random()] gives.  The flag tells that the interval was cleared
    and the pack reported as installed. *)
Definition downloadTick (id : jsstring) (random : N) (prev : Progress N)
    : Progress N * bool :=
  let current :=
    match prev id with
    | Some v => orZero v          (* prev[id] || 0 *)
    | None => of_Z 0
    end in
  if ge current (of_Z 100) then (deleteProgress id prev, true)
  else (setProgress id (current + (random * of_Z 10 + of_Z 5)) prev, false).

(** The number of the run of the callback, counted from 1, that reports
    the pack as installed; [None] when [randoms] ends before. *)
Fixpoint ticksToInstall (id : jsstring) (randoms : list N) (p : Progress N)
    : option nat :=
  match randoms with
  | [] => None
  | r :: rest =>
      match downloadTick id r p with
      | (_, true) => Some 1%nat
      | (p', false) => option_map S (ticksToInstall id rest p')
      end
  end.

(** [downloadProgress] after [k] runs of the callback. *)
Fixpoint progressAfter (id : jsstring) (k : nat) (randoms : list N) (p : Progress N)
    : Progress N :=
  match k, randoms with
  | S k', r :: rest => progressAfter id k' rest (fst (downloadTick id r p))
  | _, _ => p
  end.

End Download.

(* ================================================================== *)
(** ** Notions used in the statements *)

Definition allSpaces (s : jsstring) : bool := forallb isWhiteSpace s.

Definition noBacktick (s : jsstring) : bool :=
  forallb (fun c => negb (N.eqb c 96)) s.

(** [s] without the white space at its end. *)
Fixpoint trimEnd (s : jsstring) : jsstring :=
  match s with
  | [] => []
  | c :: r => if allSpaces (c :: r) then [] else c :: trimEnd r
  end.

(** A body between a [```json] fence and a closing fence. *)
Definition fenced (ws1 body ws2 : jsstring) : jsstring :=
  lit "```json" ++ ws1 ++ body ++ ws2 ++ lit "```".

(** [0 < f] on binary64. *)
Definition isPositive (f : float) : bool := SFltb (float_of_Z 0) f.

(** [10 <= f <= 42] on binary64; false for NaN. *)
Definition within_10_42 (f : float) : bool :=
  SFleb (float_of_Z 10) f && SFleb f (float_of_Z 42).

(** A number that is neither NaN nor infinite. *)
Definition isFinite (f : float) : bool :=
  match f with
  | S754_zero _ | S754_finite _ _ _ => true
  | _ => false
  end.

(** A number whose sign bit is clear, or a zero: not NaN and not below
    zero. *)
Definition notNegative (f : float) : bool :=
  match f with
  | S754_zero _ | S754_finite false _ _ | S754_infinity false => true
  | _ => false
  end.

Definition isZero (f : float) : bool :=
  match f with S754_zero _ => true | _ => false end.

(** The pixel height, width and area of a box, as [getFontSize] computes
    them ([h_px], [w_px] and [area]). *)
Definition boxHeightPx (box : list float) (rectH : float) : float :=
  (((element box 2 - element box 0) / of_Z 1000) * rectH)%js.

Definition boxWidthPx (contentRect : option (Rect.t float)) (box : list float)
    (rectH : float) : float :=
  (((element box 3 - element box 1) / of_Z 1000)
   * (match contentRect with Some r => Rect.w r | None => rectH end))%js.

Definition boxArea (contentRect : option (Rect.t float)) (box : list float)
    (rectH : float) : float :=
  (boxWidthPx contentRect box rectH * boxHeightPx box rectH)%js.

(** A square content rectangle of 100 pixels, and a box whose [ymax] is
    smaller than its [ymin]. *)
Definition rect100 : Rect.t float :=
  Rect.mk (float_of_Z 0) (float_of_Z 0) (float_of_Z 100) (float_of_Z 100).

Definition invertedBox : list float := List.map float_of_Z [500; 0; 100; 100].

(** A box of area zero, and a content rectangle without bounds. *)
Definition flatBox : list float := List.map float_of_Z [100; 100; 100; 400].

Definition unboundedRect : Rect.t float :=
  Rect.mk (float_of_Z 0) (float_of_Z 0) (S754_infinity false) (S754_infinity false).

Definition offlineBox : list float := List.map float_of_Z [350; 200; 500; 800].

(** A result with a summary and no items. *)
Definition helloResult : TranslationResult :=
  {| items := []; summary := lit "Hello" |}.

(** A stand-in for [JSON.parse] that accepts nothing but ["{}"], read as an
    object without items and summary. *)
Definition parseBraces (s : jsstring) : Exc ResultValue :=
  if str_eqb s (lit "{}") then Ok (Some {| items := []; summary := [] |})
  else Throw.

(** What holds of the awaited calls and of the timers in every state the
    application reaches: each call was started with auto mode on, and no
    timer waits for 2000 ms. *)
Definition startedInAutoMode (s : App) : Prop :=
  Forall (fun c => closure_isAutoMode c = true) (inflight s) /\
  Forall (fun t => delay t = 100 \/ delay t = 3000) (timers s).

(** The events that ask for a capture: the main trigger button and the
    capture hook of the camera feed. *)
Definition isCaptureTrigger (e : Event) : bool :=
  match e with
  | ClickScan | FrameCaptured _ _ _ => true
  | _ => false
  end.

Definition frame1 : jsstring := lit "FRAME1".
Definition frame2 : jsstring := lit "FRAME2".

(** A manual scan of the live camera: the button, then the frame that the
    capture hook takes. *)
Definition manualScanTrace : list Event :=
  [ClickScan; FrameCaptured false true frame1].

(** Auto mode, a frame, and the network failing under the call. *)
Definition networkFailureTrace : list Event :=
  [ClickAutoScan; FrameCaptured false true frame1;
   InferenceSettled 0 Throw 1700000000000].

(** Auto mode switched off and on again while a call is awaited. *)
Definition restartTrace : list Event :=
  [ClickAutoScan; FrameCaptured false true frame1;
   ClickAutoScan; ClickAutoScan; FrameCaptured false true frame2].

(** A result on display, a second scan under way, then a camera flip. *)
Definition flipTrace : list Event :=
  [ClickAutoScan; FrameCaptured false true frame1;
   InferenceSettled 0 Throw 1700000000000;
   FrameCaptured false true frame2; ClickFlipCamera].

(** The call awaited after auto mode was switched on and a frame taken,
    and the state at that point. *)
Definition firstCall : Pending :=
  {| closure_isAutoMode := true; closure_autoSave := true;
     closure_useOfflineMode := false; sentImage := frame1 |}.

Definition scanningApp : App :=
  handleFrameCapture_call frame1 (toggleAutoMode initialApp).

Definition noComma (s : jsstring) : bool :=
  forallb (fun c => negb (N.eqb c 44)) s.

(** The header that the camera feed puts in front of a static image to
    show it, and that a canvas puts in front of a captured frame. *)
Definition jpegHeader : jsstring := lit "data:image/jpeg;base64".

(** A stand-in for [JSON.parse] that accepts nothing but ["null"]. *)
Definition parseNull (s : jsstring) : Exc ResultValue :=
  if str_eqb s (lit "null") then Ok None else Throw.

(** The result of the offline stub, and a result without items. *)
Definition offlineResult : TranslationResult :=
  match translateImageOffline with
  | Ok (Some r) => r
  | _ => {| items := []; summary := [] |}
  end.

Definition summaryOnly : TranslationResult :=
  {| items := []; summary := lit "No text detected" |}.

(** An uploaded image on display. *)
Definition reviewingApp : App :=
  handleFileUpload (Some (jpegHeader ++ [44%N] ++ lit "AAAA")) initialApp.

(** What a reload of the page makes of the present store. *)
Definition reload (f : AppSettings) : AppSettings :=
  mount (localStorage f) (localStorage_history (core f)).

(** The store holds both preferences and the packs. *)
Definition persistedPreferences (f : AppSettings) : Prop :=
  autoSave (core (reload f)) = autoSave (core f) /\
  useOfflineMode (core (reload f)) = useOfflineMode (core f) /\
  languagePacks (reload f) = languagePacks f.

(** No write of the item of the history fails in the run. *)
Definition historyWritesSucceed (trace : list SettingsEvent) : bool :=
  forallb (fun e => match e with AppEventStoreFull _ => false | _ => true end) trace.

(** One entry kept from an earlier visit. *)
Definition earlierEntry : HistoryItem.t :=
  HistoryItem.mk (lit "1600000000000") 1600000000000 (lit "Hello") (lit "Hello").

(** The service fails, its fallback result is put on display and saved by
    hand while the store is full. *)
Definition saveOnFullStore : list SettingsEvent :=
  [AppEvent ClickAutoScan; AppEvent (FrameCaptured false true frame1);
   AppEvent (InferenceSettled 0 Throw 1700000000000);
   AppEventStoreFull (ClickSave 1700000000001)].

Definition emptyStore : Store :=
  {| jp_kr_autosave := None; jp_kr_packs := None; jp_kr_offline_pref := None |}.

(** Offline mode is on only with every pack installed. *)
Definition offlineNeedsPacks (f : AppSettings) : Prop :=
  useOfflineMode (core f) = true -> allPacksDownloaded (languagePacks f) = true.

Definition noProgress {N : Type} : Progress N := fun _ => None.

Definition isRandom (r : Q) : Prop := (0 <= r /\ r < 1)%Q.

(* ================================================================== *)
(** * Properties *)

(* ------------------------------------------------------------------ *)
(** ** History *)

Lemma slice_cons {A} (n : nat) (a : A) (l : list A) :
  slice (S n) (a :: l) = slice n l.
Proof. reflexivity. Qed.

Lemma slice_short {A} (n : nat) (l : list A) :
  (List.length l <= n)%nat -> slice n l = [].
Proof. intros Hlen. unfold slice. now apply skipn_all2. Qed.

(** Whatever is saved, the history afterwards is the old one or the old
    one without its 49 most recent entries; the new entry is not in it. *)
Lemma saveToHistory_history (now : N) (result : TranslationResult) (s : App) :
  history (saveToHistory now result s) = history s \/
  history (saveToHistory now result s) = slice 49 (history s).
Proof.
  unfold saveToHistory.
  destruct (isEmpty (items result) && negb (nonempty (summary result))); [now left|].
  unfold historyUpdate.
  destruct (match history s with
            | [] => false
            | p :: _ => str_eqb (HistoryItem.fullText p) (fullTextOf result)
                        && str_eqb (HistoryItem.summary p) (summary result)
            end); [now left|].
  right. cbn [setHistoryAndStore history]. apply slice_cons.
Qed.

Lemma str_eqb_eq (a b : jsstring) : str_eqb a b = true <-> a = b.
Proof.
  revert b. induction a as [|c a IH]; intros [|d b]; cbn; split; try congruence.
  - intros E. apply andb_true_iff in E. destruct E as [E1 E2].
    apply N.eqb_eq in E1. apply IH in E2. congruence.
  - intros E. injection E as -> ->. rewrite N.eqb_refl. now apply IH.
Qed.

(** C1: the claim asks that a result that differs from the most recent
    entry be prepended, so that the history grows by one up to 50 entries.
    The code takes [slice(50)] of the extended list, which keeps what lies
    beyond the first 50 entries: with fewer than 50 entries before the
    save, the history is empty after it. *)
Theorem saveToHistory_loses_entry (now : N) (result : TranslationResult) (s : App) :
  items result <> [] \/ summary result <> [] ->
  (forall p rest, history s = p :: rest ->
     ~ (HistoryItem.fullText p = fullTextOf result
        /\ HistoryItem.summary p = summary result)) ->
  (List.length (history s) < 50)%nat ->
  history (saveToHistory now result s) = [].
Proof.
  intros Hsavable Hnew Hlen.
  unfold saveToHistory.
  replace (isEmpty (items result) && negb (nonempty (summary result))) with false.
  2:{ destruct Hsavable as [Hi|Hs].
      - destruct (items result); [congruence|reflexivity].
      - destruct (summary result); [congruence|]. cbn. now rewrite andb_false_r. }
  unfold historyUpdate.
  assert (Hdup : match history s with
            | [] => false
            | p :: _ => str_eqb (HistoryItem.fullText p) (fullTextOf result)
                        && str_eqb (HistoryItem.summary p) (summary result)
            end = false).
  { destruct (history s) as [|p rest] eqn:Hh; [reflexivity|].
    specialize (Hnew p rest eq_refl).
    apply not_true_is_false. intros E.
    apply andb_true_iff in E. destruct E as [E1 E2].
    apply str_eqb_eq in E1. apply str_eqb_eq in E2. now apply Hnew. }
  rewrite Hdup. cbn [setHistoryAndStore history].
  apply slice_short. cbn [List.length]. lia.
Qed.

Lemma saveToHistory_loses_entry_witness :
  history (saveToHistory 1700000000000 helloResult initialApp) = [].
Proof.
  apply saveToHistory_loses_entry.
  - right. discriminate.
  - intros p rest Hh. discriminate Hh.
  - cbn. lia.
Defined.

(* ------------------------------------------------------------------ *)
(** ** The inference service *)

Lemma replaceFences_skip (k : nat) (s : jsstring) :
  replaceFences k s = replaceFences O (skipn k s).
Proof.
  revert k. induction s as [|c r IH]; intros k.
  - now destruct k.
  - destruct k as [|k]; [reflexivity|]. cbn [replaceFences skipn]. apply IH.
Qed.

Lemma replaceFences_match (n : nat) (s : jsstring) :
  fenceMatch s = Some (S n) ->
  replaceFences O s = replaceFences O (skipn (S n) s).
Proof.
  intros Hm. destruct s as [|c r]; [discriminate Hm|].
  cbn [replaceFences]. rewrite Hm. cbn [Nat.pred skipn].
  apply replaceFences_skip.
Qed.

Lemma skipn_countSpaces (s : jsstring) : skipn (countSpaces s) s = dropSpaces s.
Proof.
  induction s as [|c r IH]; [reflexivity|].
  cbn. destruct (isWhiteSpace c); [exact IH|reflexivity].
Qed.

Lemma dropSpaces_spaces (w t : jsstring) :
  allSpaces w = true -> dropSpaces (w ++ t) = dropSpaces t.
Proof.
  induction w as [|c w IH]; [reflexivity|].
  cbn. intros H. apply andb_true_iff in H. destruct H as [Hc Hw].
  rewrite Hc. now apply IH.
Qed.

Lemma countSpaces_spaces (w t : jsstring) :
  allSpaces w = true -> countSpaces (w ++ t) = (List.length w + countSpaces t)%nat.
Proof.
  induction w as [|c w IH]; [reflexivity|].
  cbn. intros H. apply andb_true_iff in H. destruct H as [Hc Hw].
  rewrite Hc. f_equal. now apply IH.
Qed.

Lemma dropSpaces_not_spaces (a t : jsstring) :
  allSpaces a = false ->
  dropSpaces (a ++ t) = dropSpaces a ++ t /\
  exists d r, dropSpaces a = d :: r /\ In d a /\ isWhiteSpace d = false.
Proof.
  induction a as [|c a IH]; [discriminate|].
  cbn. destruct (isWhiteSpace c) eqn:Hc; cbn.
  - intros H. destruct (IH H) as [E (d & r & Hd & Hin & Hws)].
    split; [exact E|]. exists d, r. auto.
  - intros _. split; [reflexivity|]. exists c, a. auto.
Qed.

Lemma space_not_backtick (c : code_unit) :
  isWhiteSpace c = true -> N.eqb 96 c = false.
Proof.
  intros H. destruct (N.eqb_spec 96 c) as [<-|]; [discriminate H|reflexivity].
Qed.

Lemma noBacktick_In (s : jsstring) (d : code_unit) :
  noBacktick s = true -> In d s -> N.eqb 96 d = false.
Proof.
  unfold noBacktick. intros H Hin.
  rewrite forallb_forall in H. specialize (H d Hin).
  rewrite N.eqb_sym. now apply negb_true_iff.
Qed.

Lemma startsWith_head (a c : code_unit) (p s : jsstring) :
  N.eqb a c = false -> startsWith (a :: p) (c :: s) = false.
Proof. intros H. cbn [startsWith]. now rewrite H. Qed.

Lemma fence_open_head (c : code_unit) (s : jsstring) :
  N.eqb 96 c = false -> startsWith (lit "```json") (c :: s) = false.
Proof. apply (startsWith_head 96%N c (lit "``json")). Qed.

Lemma fence_close_head (c : code_unit) (s : jsstring) :
  N.eqb 96 c = false -> startsWith (lit "```") (c :: s) = false.
Proof. apply (startsWith_head 96%N c (lit "``")). Qed.

(** White space before a closing fence goes with the fence. *)
Lemma replaceFences_closing (w : jsstring) :
  allSpaces w = true -> replaceFences O (w ++ lit "```") = [].
Proof.
  intros Hw.
  assert (Hm : fenceMatch (w ++ lit "```") = Some (S (List.length w + 2))).
  { unfold fenceMatch.
    replace (startsWith (lit "```json") (w ++ lit "```")) with false.
    2:{ destruct w as [|c w]; [reflexivity|].
        cbn in Hw. apply andb_true_iff in Hw. destruct Hw as [Hc _].
        apply eq_sym, fence_open_head, space_not_backtick, Hc. }
    rewrite dropSpaces_spaces by exact Hw.
    rewrite countSpaces_spaces by exact Hw.
    cbn. f_equal. lia. }
  rewrite (replaceFences_match _ _ Hm).
  rewrite skipn_all2; [reflexivity|].
  rewrite length_app. cbn. lia.
Qed.

Lemma allSpaces_app (a b : jsstring) :
  allSpaces (a ++ b) = allSpaces a && allSpaces b.
Proof. apply forallb_app. Qed.

(** Up to the closing fence, a body without backticks is kept, except for
    the white space at its end. *)
Lemma replaceFences_body (body ws2 : jsstring) :
  noBacktick body = true -> allSpaces ws2 = true ->
  replaceFences O (body ++ ws2 ++ lit "```") = trimEnd body.
Proof.
  intros Hb Hw. induction body as [|c b IH].
  - cbn [app trimEnd]. now apply replaceFences_closing.
  - cbn [trimEnd]. destruct (allSpaces (c :: b)) eqn:Hall.
    + rewrite app_assoc. apply replaceFences_closing.
      rewrite allSpaces_app, Hall, Hw. reflexivity.
    + assert (Hb' : noBacktick b = true).
      { cbn in Hb. apply andb_true_iff in Hb. tauto. }
      assert (Hc : N.eqb 96 c = false).
      { apply (noBacktick_In (c :: b)); [exact Hb|now left]. }
      assert (Hm : fenceMatch ((c :: b) ++ ws2 ++ lit "```") = None).
      { unfold fenceMatch.
        replace (startsWith (lit "```json") ((c :: b) ++ ws2 ++ lit "```")) with false
          by (apply eq_sym, fence_open_head, Hc).
        destruct (dropSpaces_not_spaces (c :: b) (ws2 ++ lit "```") Hall)
          as [E (d & r & Hd & Hin & _)].
        rewrite E, Hd. cbn [app].
        now rewrite (fence_close_head d _ (noBacktick_In (c :: b) d Hb Hin)). }
      change (replaceFences O ((c :: b) ++ ws2 ++ lit "```"))
        with (match fenceMatch ((c :: b) ++ ws2 ++ lit "```") with
              | Some n => replaceFences (Nat.pred n) (b ++ ws2 ++ lit "```")
              | None => c :: replaceFences O (b ++ ws2 ++ lit "```")
              end).
      rewrite Hm. f_equal. now apply IH.
Qed.

Lemma allSpaces_rev (s : jsstring) : allSpaces (rev s) = allSpaces s.
Proof.
  induction s as [|c s IH]; [reflexivity|].
  cbn [rev]. rewrite allSpaces_app, IH. cbn. rewrite andb_true_r. apply andb_comm.
Qed.

Lemma dropSpaces_allSpaces (s : jsstring) : allSpaces s = true -> dropSpaces s = [].
Proof.
  intros H. rewrite <- (app_nil_r s). now rewrite dropSpaces_spaces.
Qed.

Lemma trimEnd_allSpaces (s : jsstring) : allSpaces s = true -> trimEnd s = [].
Proof. intros H. destruct s as [|c s]; [reflexivity|]. cbn [trimEnd]. now rewrite H. Qed.

Lemma trimEnd_nil (s : jsstring) : trimEnd s = [] -> allSpaces s = true.
Proof.
  destruct s as [|c s]; [reflexivity|]. cbn [trimEnd].
  destruct (allSpaces (c :: s)); [reflexivity|discriminate].
Qed.

Lemma rev_dropSpaces_rev (s : jsstring) : rev (dropSpaces (rev s)) = trimEnd s.
Proof.
  induction s as [|c s IH]; [reflexivity|].
  cbn [rev trimEnd]. destruct (allSpaces (rev s)) eqn:Hs.
  - rewrite dropSpaces_spaces by exact Hs.
    rewrite allSpaces_rev in Hs.
    cbn [allSpaces forallb] in *. fold (allSpaces s). rewrite Hs, andb_true_r.
    cbn [dropSpaces]. destruct (isWhiteSpace c); [reflexivity|].
    cbn. now rewrite (trimEnd_allSpaces s Hs).
  - destruct (dropSpaces_not_spaces (rev s) [c] Hs) as [E _].
    rewrite E, rev_app_distr, IH. cbn [rev app].
    rewrite allSpaces_rev in Hs.
    cbn [allSpaces forallb]. fold (allSpaces s). rewrite Hs, andb_false_r.
    reflexivity.
Qed.

Lemma trim_trimEnd (s : jsstring) : trim s = trimEnd (dropSpaces s).
Proof. apply rev_dropSpaces_rev. Qed.

Lemma trimEnd_idem (s : jsstring) : trimEnd (trimEnd s) = trimEnd s.
Proof.
  induction s as [|c s IH]; [reflexivity|].
  cbn [trimEnd]. destruct (allSpaces (c :: s)) eqn:Hall; [reflexivity|].
  cbn [trimEnd]. rewrite IH.
  replace (allSpaces (c :: trimEnd s)) with false; [reflexivity|].
  symmetry. cbn [allSpaces forallb] in *. fold (allSpaces s) in Hall.
  fold (allSpaces (trimEnd s)).
  apply andb_false_iff in Hall. apply andb_false_iff.
  destruct Hall as [Hc|Hs]; [now left|right].
  apply not_true_is_false. intros Ht.
  assert (Hnil : trimEnd (trimEnd s) = []) by now apply trimEnd_allSpaces.
  rewrite IH in Hnil. apply trimEnd_nil in Hnil. congruence.
Qed.

Lemma dropSpaces_head (s : jsstring) :
  dropSpaces s = [] \/ exists d r, dropSpaces s = d :: r /\ isWhiteSpace d = false.
Proof.
  induction s as [|c s IH]; [now left|].
  cbn. destruct (isWhiteSpace c) eqn:Hc; [exact IH|].
  right. exists c, s. auto.
Qed.

Lemma trim_idem (s : jsstring) : trim (trim s) = trim s.
Proof.
  rewrite !trim_trimEnd.
  destruct (dropSpaces_head s) as [E|(d & r & E & Hd)]; rewrite E; [reflexivity|].
  assert (Ht : trimEnd (d :: r) = d :: trimEnd r).
  { cbn. now rewrite Hd. }
  rewrite Ht. cbn [dropSpaces]. rewrite Hd. rewrite <- Ht. apply trimEnd_idem.
Qed.

Lemma noBacktick_dropSpaces (s : jsstring) :
  noBacktick s = true -> noBacktick (dropSpaces s) = true.
Proof.
  induction s as [|c s IH]; [reflexivity|].
  intros H. cbn [dropSpaces]. destruct (isWhiteSpace c); [|exact H].
  apply IH. cbn in H. apply andb_true_iff in H. tauto.
Qed.

(** A fenced body is cleaned to the body itself, trimmed. *)
Lemma cleanText_fenced (ws1 body ws2 : jsstring) :
  allSpaces ws1 = true -> allSpaces ws2 = true -> noBacktick body = true ->
  cleanText (fenced ws1 body ws2) = trim body.
Proof.
  intros H1 H2 Hb. unfold cleanText, fenced.
  set (rest := ws1 ++ body ++ ws2 ++ lit "```").
  assert (Hm : fenceMatch (lit "```json" ++ rest)
               = Some (S (6 + countSpaces rest))) by reflexivity.
  rewrite (replaceFences_match _ _ Hm).
  change (skipn (S (6 + countSpaces rest)) (lit "```json" ++ rest))
    with (skipn (countSpaces rest) rest).
  rewrite skipn_countSpaces. unfold rest.
  rewrite dropSpaces_spaces by exact H1.
  destruct (allSpaces body) eqn:Hall.
  - rewrite app_assoc, dropSpaces_spaces
      by (rewrite allSpaces_app, Hall, H2; reflexivity).
    rewrite (trim_trimEnd body), (dropSpaces_allSpaces body Hall). reflexivity.
  - destruct (dropSpaces_not_spaces body (ws2 ++ lit "```") Hall) as [E _].
    rewrite E, replaceFences_body by (auto using noBacktick_dropSpaces).
    rewrite <- trim_trimEnd. apply trim_idem.
Qed.




(* ------------------------------------------------------------------ *)
(** ** Content rectangle *)

Lemma isPositive_not_zero (f : float) :
  isPositive f = true -> SFeqb f (float_of_Z 0) = false.
Proof. destruct f as [[|]|[|]| |[|] m e]; cbn; congruence. Qed.

(** C4: for a static image in a container, all four sizes positive, the
    content rectangle is the contain-fit one: as high as the container
    and centred horizontally when the container is the wider of the two,
    as wide as the container and centred vertically otherwise.  An
    800 x 400 container with a 1200 x 1200 image gives (200, 0, 400, 400). *)
Theorem updateContentRect_contain (cw ch nw nh : float) (video : bool) :
  isPositive cw = true -> isPositive ch = true ->
  isPositive nw = true -> isPositive nh = true ->
  (let a := (nw / nh)%js in
   updateContentRect
     (Some {| offsetWidth := cw; offsetHeight := ch |}) true true
     (Some {| naturalWidth := nw; naturalHeight := nh |}) video
   = Some (if (cw / ch > a)%js
           then Rect.mk ((cw - ch * a) / of_Z 2)%js (of_Z 0) (ch * a)%js ch
           else Rect.mk (of_Z 0) ((ch - cw / a) / of_Z 2)%js cw (cw / a)%js))
  /\
  updateContentRect
    (Some {| offsetWidth := float_of_Z 800; offsetHeight := float_of_Z 400 |})
    true true
    (Some {| naturalWidth := float_of_Z 1200; naturalHeight := float_of_Z 1200 |})
    video
  = Some (Rect.mk (float_of_Z 200) (float_of_Z 0) (float_of_Z 400) (float_of_Z 400)).
Proof.
  intros _ _ Hnw _. split; [|reflexivity].
  cbv zeta. unfold updateContentRect.
  cbn [offsetWidth offsetHeight naturalWidth naturalHeight].
  change (strict_eq nw (of_Z 0)) with (SFeqb nw (float_of_Z 0)).
  rewrite (isPositive_not_zero nw Hnw).
  destruct (cw / ch > nw / nh)%js; reflexivity.
Qed.

Lemma updateContentRect_contain_witness :
  updateContentRect
    (Some {| offsetWidth := float_of_Z 800; offsetHeight := float_of_Z 400 |})
    true true
    (Some {| naturalWidth := float_of_Z 1200; naturalHeight := float_of_Z 1200 |})
    false
  = Some (Rect.mk (float_of_Z 200) (float_of_Z 0) (float_of_Z 400) (float_of_Z 400)).
Proof.
  apply (updateContentRect_contain
           (float_of_Z 800) (float_of_Z 400) (float_of_Z 1200) (float_of_Z 1200) false);
    reflexivity.
Defined.

(* ------------------------------------------------------------------ *)
(** ** Overlay placement, in exact arithmetic *)

Local Open Scope Q_scope.

Lemma scale_nonneg (a b h : Q) : a <= b -> 0 <= h -> (a / 1000) * h <= (b / 1000) * h.
Proof.
  intros Hab Hh. apply Qmult_le_compat_r; [|exact Hh].
  unfold Qdiv. apply Qmult_le_compat_r; [exact Hab|]. discriminate.
Qed.



Local Close Scope Q_scope.

(* ------------------------------------------------------------------ *)
(** ** Capture crop, in exact arithmetic *)

Local Open Scope Q_scope.

Lemma gt_Q_true (a b : Q) : b < a -> gt a b = true.
Proof.
  intros H. cbn. apply negb_true_iff, not_true_is_false.
  intros E. apply Qle_bool_iff in E. lra.
Qed.

Lemma gt_Q_false (a b : Q) : a <= b -> gt a b = false.
Proof.
  intros H. cbn. apply negb_false_iff. now apply Qle_bool_iff.
Qed.

Lemma strict_eq_Q_false (a : Q) : 0 < a -> strict_eq a (of_Z 0) = false.
Proof.
  intros H. cbn. apply not_true_is_false. intros E.
  apply Qeq_bool_iff in E. change (inject_Z 0) with 0 in E. lra.
Qed.

Lemma Qdiv_pos (a b : Q) : 0 < a -> 0 < b -> 0 < a / b.
Proof.
  intros Ha Hb. unfold Qdiv. apply Qmult_lt_0_compat; [exact Ha|].
  now apply Qinv_lt_0_compat.
Qed.

Lemma Qdiv_mult_cancel (a b : Q) : 0 < b -> (a / b) * b == a.
Proof. intros Hb. field. lra. Qed.

(** For a number from 0 to below 2^31, the size a canvas takes is the
    integer part. *)
Lemma canvas_dimension_floor (default : Z) (q : Q) :
  0 <= q -> q < 2147483648 ->
  inject_Z (canvas_dimension default q) <= q /\
  q < inject_Z (canvas_dimension default q) + 1.
Proof.
  intros H0 H1.
  assert (E : canvas_dimension default q = Qfloor q).
  { unfold canvas_dimension, unsigned_long, truncate, Truncation_Q.
    assert (Hq : Z.quot (Qnum q) (Zpos (Qden q)) = Qfloor q).
    { destruct q as [n d]. cbn [Qnum Qden Qfloor].
      apply Z.quot_div_nonneg; [|lia].
      unfold Qle in H0. cbn in H0. lia. }
    rewrite Hq.
    assert (Hlo : (0 <= Qfloor q)%Z).
    { change 0%Z with (Qfloor 0). now apply Qfloor_resp_le. }
    assert (Hhi : (Qfloor q < 2147483648)%Z).
    { rewrite Zlt_Qlt. apply Qle_lt_trans with q; [apply Qfloor_le|exact H1]. }
    rewrite Z.mod_small by lia.
    replace (Qfloor q <=? 2147483647)%Z with true
      by (symmetry; apply Z.leb_le; lia).
    reflexivity. }
  rewrite E. split; [apply Qfloor_le|].
  change 1 with (inject_Z 1). rewrite <- inject_Z_plus. apply Qlt_floor.
Qed.




Local Close Scope Q_scope.

(* ------------------------------------------------------------------ *)
(** ** Capture scheduling *)

Lemma AppState_eqb_eq (a b : AppState) : AppState_eqb a b = true <-> a = b.
Proof. destruct a, b; cbn; split; congruence. Qed.

(** While scanning, or with the settings open, [handleFrameCapture]
    returns at once. *)
Lemma handleFrameCapture_call_blocked (frame : jsstring) (s : App) :
  appState s = SCANNING \/ isSettingsOpen s = true ->
  handleFrameCapture_call frame s = s.
Proof.
  intros [H|H]; unfold handleFrameCapture_call; rewrite H.
  - reflexivity.
  - now rewrite orb_true_r.
Qed.

Lemma handleManualScan_not_idle (s : App) :
  appState s <> IDLE -> handleManualScan s = s.
Proof.
  intros H. unfold handleManualScan.
  destruct (AppState_eqb (appState s) IDLE) eqn:E.
  - apply AppState_eqb_eq in E. contradiction.
  - now rewrite andb_false_r.
Qed.

(** The capture hook only runs in auto mode, so the frame it hands to
    [handleFrameCapture] is never frozen. *)
Lemma capture_hook_keeps_staticImage (JSON_parse : jsstring -> Exc ResultValue)
    (s s' : App) (error activeStream : bool) (frame : jsstring) :
  dispatch JSON_parse s (FrameCaptured error activeStream frame) = Some s' ->
  staticImage s' = staticImage s.
Proof.
  cbn [dispatch]. unfold captureHookArmed.
  destruct (isAutoMode s) eqn:Hauto; cbn [andb]; [|discriminate].
  destruct (negb error && activeStream && negb (truthy (staticImage s)));
    [|discriminate].
  intros E. injection E as <-.
  unfold handleFrameCapture_call. rewrite Hauto. cbn [negb andb].
  destruct (AppState_eqb (appState s) SCANNING || isSettingsOpen s); reflexivity.
Qed.

(** C10: the claim asks that the first manual capture of a live source
    freeze the captured frame as the static image.  The trigger button
    switches auto mode on for the capture hook to run, and
    [handleFrameCapture] freezes only when auto mode is off: after the
    button and the frame that follows, there is still no static image. *)
Theorem manual_scan_does_not_freeze (JSON_parse : jsstring -> Exc ResultValue)
    (s s1 s2 : App) (error activeStream : bool) (frame : jsstring) :
  isAutoMode s = false -> staticImage s = None ->
  dispatch JSON_parse s ClickScan = Some s1 ->
  dispatch JSON_parse s1 (FrameCaptured error activeStream frame) = Some s2 ->
  staticImage s2 = None.
Proof.
  intros Hauto Hstatic H1 H2.
  rewrite (capture_hook_keeps_staticImage _ _ _ _ _ _ H2).
  cbn [dispatch] in H1.
  destruct (negb (isSettingsOpen s) && negb (isAutoMode s)); [|discriminate].
  injection H1 as <-. unfold handleManualScan.
  destruct (negb (isAutoMode s) && AppState_eqb (appState s) IDLE); exact Hstatic.
Qed.

Lemma manual_scan_does_not_freeze_witness :
  exists s2, run parseBraces initialApp manualScanTrace = Some s2 /\
             staticImage s2 = None /\ appState s2 = SCANNING /\
             List.map sentImage (inflight s2) = [frame1].
Proof.
  eexists. split; [reflexivity|]. split; [|split; reflexivity].
  eapply (manual_scan_does_not_freeze parseBraces initialApp _ _ false true frame1);
    reflexivity.
Defined.

(** C8, as the code has it: while the scan state is [SCANNING], or while
    the settings are open, a capture trigger cannot happen or leaves the
    whole state as it is, awaited calls included. *)
Theorem capture_trigger_ignored (JSON_parse : jsstring -> Exc ResultValue)
    (s : App) (e : Event) :
  appState s = SCANNING \/ isSettingsOpen s = true ->
  isCaptureTrigger e = true ->
  dispatch JSON_parse s e = None \/ dispatch JSON_parse s e = Some s.
Proof.
  intros Hs He. destruct e; try discriminate He; cbn [dispatch].
  - destruct (negb (isSettingsOpen s) && negb (isAutoMode s)) eqn:E; [|now left].
    right. f_equal. destruct Hs as [Hs|Hs].
    + apply handleManualScan_not_idle. rewrite Hs. discriminate.
    + rewrite Hs in E. discriminate E.
  - destruct (captureHookArmed (isAutoMode s) error activeStream (staticImage s));
      [|now left].
    right. f_equal. now apply handleFrameCapture_call_blocked.
Qed.

Lemma capture_trigger_ignored_witness :
  appState scanningApp = SCANNING /\
  dispatch parseBraces scanningApp (FrameCaptured false true frame2) = Some scanningApp.
Proof.
  split; [reflexivity|].
  destruct (capture_trigger_ignored parseBraces scanningApp
              (FrameCaptured false true frame2)) as [H|H].
  - left. reflexivity.
  - reflexivity.
  - discriminate H.
  - exact H.
Defined.

(** C8, counterexample: switching auto mode off resets the scan state to
    [IDLE] while the call is still awaited; switched on again, the hook
    starts a second call. *)
Lemma two_calls_in_flight :
  option_map (fun s => (appState s, List.map sentImage (inflight s)))
    (run parseBraces initialApp restartTrace)
  = Some (SCANNING, [frame1; frame2]).
Proof. reflexivity. Qed.

(* ------------------------------------------------------------------ *)
(** ** Failure of an inference call *)

(** What [translateImage] gives for a response that carries no usable
    result: one of its three fallback results. *)
Lemma translateImage_fallback (JSON_parse : jsstring -> Exc ResultValue)
    (response : Exc (option jsstring)) :
  response = Throw \/ response = Ok None \/
  (exists text, response = Ok (Some text) /\ JSON_parse (cleanText text) = Throw) ->
  exists fallback,
    translateImage JSON_parse response = Ok (Some fallback) /\
    items fallback = [] /\
    In fallback [connectionErrorResult; emptyResponseResult; invalidFormatResult].
Proof.
  intros [->|[->|(text & -> & Hp)]].
  - exists connectionErrorResult. repeat split. now left.
  - exists emptyResponseResult. repeat split. right. now left.
  - destruct text as [|c t].
    + exists emptyResponseResult. repeat split. right. now left.
    + exists invalidFormatResult. unfold translateImage, bind, try_catch.
      rewrite Hp. repeat split. right. right. now left.
Qed.

(** C6, as the code has it.  When the awaited call throws or gives no
    result object, the scan state becomes [ERROR] and one timer is set
    that puts it back to [IDLE]: after 3000 ms when the handler was created
    with auto mode on, after 2000 ms otherwise.  A transport failure, an
    empty response and a response that does not parse are not seen this
    way: [translateImage] answers them with a fallback result, which is put
    on display, and the scan state becomes [IDLE] with no timer set. *)
Theorem inference_failure_transitions (JSON_parse : jsstring -> Exc ResultValue)
    (now : N) (c : Pending) (s : App) :
  (forall awaited, awaited = Throw \/ awaited = Ok None ->
     let s' := handleFrameCapture_resume now c awaited s in
     appState s' = ERROR /\
     timers s' = timers s ++ [{| delay := if closure_isAutoMode c then 3000 else 2000;
                                 callback := SetAppState IDLE |}] /\
     appState (runTimer (SetAppState IDLE) s') = IDLE) /\
  (forall i response,
     nth_error (inflight s) i = Some c ->
     closure_useOfflineMode c = false ->
     response = Throw \/ response = Ok None \/
     (exists text, response = Ok (Some text) /\ JSON_parse (cleanText text) = Throw) ->
     exists s' fallback,
       dispatch JSON_parse s (InferenceSettled i response now) = Some s' /\
       appState s' = IDLE /\
       translationData s' = Some fallback /\
       In fallback [connectionErrorResult; emptyResponseResult; invalidFormatResult] /\
       timers s' = timers s).
Proof.
  split.
  - intros awaited [->| ->]; cbn [handleFrameCapture_resume];
      destruct (closure_isAutoMode c); repeat split.
  - intros i response Hi Hoff Hresp.
    destruct (translateImage_fallback JSON_parse response Hresp)
      as (fallback & Ht & Hitems & Hin).
    cbn [dispatch]. rewrite Hi, Hoff, Ht.
    eexists. exists fallback. split; [reflexivity|].
    cbn [handleFrameCapture_resume]. rewrite Hitems. cbn [isEmpty negb].
    rewrite andb_false_r. repeat split. exact Hin.
Qed.

Lemma inference_failure_transitions_witness :
  (let s' := handleFrameCapture_resume 1700000000000 firstCall Throw scanningApp in
   appState s' = ERROR /\
   timers s' = timers scanningApp ++ [{| delay := 3000; callback := SetAppState IDLE |}] /\
   appState (runTimer (SetAppState IDLE) s') = IDLE) /\
  (exists s' fallback,
     dispatch parseBraces scanningApp (InferenceSettled 0 Throw 1700000000000) = Some s' /\
     appState s' = IDLE /\
     translationData s' = Some fallback /\
     In fallback [connectionErrorResult; emptyResponseResult; invalidFormatResult] /\
     timers s' = timers scanningApp).
Proof.
  destruct (inference_failure_transitions parseBraces 1700000000000 firstCall scanningApp)
    as [HA HB].
  split.
  - apply (HA Throw). now left.
  - apply (HB 0%nat Throw); [reflexivity|reflexivity|now left].
Defined.

(** C6, counterexample: auto mode on, a frame sent and the network failing
    under the call.  The scan state is [IDLE] afterwards, not [ERROR], no
    timer is set, and the fallback result is on display. *)
Lemma network_failure_goes_idle :
  option_map (fun s => (appState s, timers s, translationData s))
    (run parseBraces initialApp networkFailureTrace)
  = Some (IDLE, [], Some connectionErrorResult).
Proof. reflexivity. Qed.

(* ------------------------------------------------------------------ *)
(** ** Source switches *)

(** Flipping the camera and starting or stopping the screen share leave
    the displayed result where it is. *)
Lemma flip_and_share_keep_result (s : App) :
  translationData (toggleCamera s) = translationData s /\
  forall granted, translationData (toggleScreenShare granted s) = translationData s.
Proof.
  split; [reflexivity|]. intros granted. unfold toggleScreenShare.
  destruct (isScreenShareSupported s); cbn [negb]; [|reflexivity].
  destruct (screenStream s); [reflexivity|]. destruct granted; reflexivity.
Qed.



(* ------------------------------------------------------------------ *)
(** ** Font size *)

Section Rounding.

Variables p em : Z.

Lemma shr_1_nonneg (mrs : shr_record) : 0 <= shr_m mrs -> 0 <= shr_m (shr_1 mrs).
Proof.
  destruct mrs as [m r s]. cbn [shr_m]. intros H.
  destruct m as [|[q|q|]|q]; cbn; lia.
Qed.

Lemma iter_shr_1_nonneg (n : positive) (mrs : shr_record) :
  0 <= shr_m mrs -> 0 <= shr_m (iter_pos shr_1 n mrs).
Proof.
  revert mrs. induction n as [n IH|n IH|]; intros mrs H; cbn [iter_pos].
  - apply IH, IH, shr_1_nonneg, H.
  - apply IH, IH, H.
  - apply shr_1_nonneg, H.
Qed.

Lemma shr_fexp_nonneg (m e : Z) (l : location) :
  0 <= m -> 0 <= shr_m (fst (shr_fexp p em m e l)).
Proof.
  intros H. unfold shr_fexp, shr.
  assert (H0 : 0 <= shr_m (shr_record_of_loc m l)) by (destruct l as [|[ | | ]]; exact H).
  destruct (fexp p em (Zdigits2 m + e) - e); cbn [fst]; auto using iter_shr_1_nonneg.
Qed.

Lemma round_nearest_even_nonneg (m : Z) (l : location) :
  0 <= m -> 0 <= round_nearest_even m l.
Proof.
  intros H. unfold round_nearest_even.
  destruct l as [|[ | | ]]; try destruct (Z.even m); lia.
Qed.

(** Rounding a mantissa that is not negative gives a zero, a finite number
    or an infinity of the sign asked for, never NaN. *)
Lemma binary_round_aux_sign (s : bool) (m e : Z) (l : location) :
  0 <= m ->
  match binary_round_aux p em s m e l with
  | S754_zero s' | S754_finite s' _ _ | S754_infinity s' => s' = s
  | S754_nan => False
  end.
Proof.
  intros H. unfold binary_round_aux.
  pose proof (shr_fexp_nonneg m e l H) as H1.
  destruct (shr_fexp p em m e l) as [mrs' e']. cbn [fst] in H1.
  pose proof (shr_fexp_nonneg _ e' loc_Exact
                (round_nearest_even_nonneg _ (loc_of_shr_record mrs') H1)) as H2.
  destruct (shr_fexp p em (round_nearest_even (shr_m mrs') (loc_of_shr_record mrs'))
              e' loc_Exact) as [mrs'' e'']. cbn [fst] in H2.
  destruct (shr_m mrs'') as [|q|q]; [reflexivity| |lia].
  destruct (e'' <=? em - p); reflexivity.
Qed.

End Rounding.

Lemma notNegative_not_nan (f : float) : notNegative f = true -> is_nan f = false.
Proof. destruct f as [s|s| |s m e]; cbn; congruence. Qed.

Lemma SFcompare_none (a b : float) :
  SFcompare a b = None -> is_nan a = true \/ is_nan b = true.
Proof.
  destruct a as [sa|sa| |sa ma ea], b as [sb|sb| |sb mb eb];
    cbn; try discriminate; auto.
Qed.

Lemma Math_min_not_nan (a b : float) :
  is_nan a = false -> is_nan b = false -> is_nan (Math_min a b) = false.
Proof.
  intros Ha Hb. unfold Math_min.
  destruct (SFcompare a b) as [[ | | ]|] eqn:C; try assumption.
  - destruct a as [[|]|sa| |sa ma ea]; assumption.
  - destruct (SFcompare_none a b C); congruence.
Qed.

Lemma SFmul_not_nan_inv (a b : float) :
  is_nan (SFmul prec emax a b) = false -> is_nan a = false /\ is_nan b = false.
Proof.
  destruct a as [sa|sa| |sa ma ea], b as [sb|sb| |sb mb eb];
    cbn [SFmul]; intros H; try discriminate H; split; reflexivity.
Qed.

Lemma binary_round_aux_not_nan (s : bool) (m e : Z) (l : location) :
  0 <= m -> is_nan (binary_round_aux prec emax s m e l) = false.
Proof.
  intros H. pose proof (binary_round_aux_sign prec emax s m e l H) as B.
  destruct (binary_round_aux prec emax s m e l); [reflexivity..|contradiction|reflexivity].
Qed.

Lemma binary_round_aux_notNegative (m e : Z) (l : location) :
  0 <= m -> notNegative (binary_round_aux prec emax false m e l) = true.
Proof.
  intros H. pose proof (binary_round_aux_sign prec emax false m e l H) as B.
  destruct (binary_round_aux prec emax false m e l); subst; try reflexivity.
  contradiction.
Qed.

(** A number times a finite number other than zero is a number. *)
Lemma SFmul_finite_not_nan (a : float) (s : bool) (m : positive) (e : Z) :
  is_nan a = false -> is_nan (SFmul prec emax a (S754_finite s m e)) = false.
Proof.
  destruct a as [sa|sa| |sa ma ea]; cbn [SFmul is_nan]; try congruence.
  intros _. now apply binary_round_aux_not_nan.
Qed.

Lemma SFdiv_core_nonneg (m1 m2 : positive) (e1 e2 : Z) :
  0 <= fst (fst (SFdiv_core_binary prec emax (Zpos m1) e1 (Zpos m2) e2)).
Proof.
  unfold SFdiv_core_binary.
  set (s := e1 - e2 - _).
  set (m' := match s with Z0 => Zpos m1 | Zpos _ => Z.shiftl (Zpos m1) s | Zneg _ => 0 end).
  assert (Hm : 0 <= m').
  { unfold m'. destruct s; try lia. apply Z.shiftl_nonneg. lia. }
  pose proof (Z.div_pos m' (Zpos m2) Hm eq_refl) as Hq.
  unfold Z.div in Hq.
  destruct (Z.div_eucl m' (Zpos m2)) as [q r]. exact Hq.
Qed.

(** Dividing by a finite number above zero keeps a number from falling
    below zero. *)
Lemma SFdiv_notNegative (a : float) (mb : positive) (eb : Z) :
  notNegative a = true ->
  notNegative (SFdiv prec emax a (S754_finite false mb eb)) = true.
Proof.
  destruct a as [sa|[|]| |[|] ma ea]; cbn [notNegative]; try discriminate; intros _.
  - reflexivity.
  - reflexivity.
  - unfold SFdiv. pose proof (SFdiv_core_nonneg ma mb ea eb) as H.
    destruct (SFdiv_core_binary prec emax (Zpos ma) ea (Zpos mb) eb) as [[mz ez] lz].
    cbn [fst] in H. now apply binary_round_aux_notNegative.
Qed.

Lemma SFsqrt_notNegative (a : float) :
  notNegative a = true -> notNegative (Math_sqrt a) = true.
Proof.
  unfold Math_sqrt.
  destruct a as [sa|[|]| |[|] ma ea]; cbn [notNegative]; try discriminate; intros _.
  - reflexivity.
  - reflexivity.
  - unfold SFsqrt, SFsqrt_core_binary.
    set (m' := match _ with Z0 => Zpos ma | Zpos _ => _ | Zneg _ => 0 end).
    pose proof (Z.sqrt_nonneg m') as Hq.
    rewrite <- Z.sqrtrem_sqrt in Hq.
    destruct (Z.sqrtrem m') as [q r]. cbn [fst] in Hq.
    now apply binary_round_aux_notNegative.
Qed.

Lemma digits2_pos_iter_xO (q k : positive) :
  digits2_pos (Pos.iter xO q k) = (digits2_pos q + k)%positive.
Proof.
  induction k as [|k IH] using Pos.peano_ind.
  - cbn. now rewrite Pos.add_1_r.
  - rewrite Pos.iter_succ. cbn [digits2_pos]. rewrite IH. now rewrite Pos.add_succ_r.
Qed.

Lemma digits2_pos_bound (q : positive) (n : Z) :
  0 <= n -> Zpos q < 2 ^ n -> Zpos (digits2_pos q) <= n.
Proof.
  revert n. induction q as [q IH|q IH|]; intros n Hn Hq; cbn [digits2_pos].
  - destruct (Z.eq_dec n 0) as [->|Hne]; [cbn in Hq; lia|].
    replace n with (Z.succ (n - 1)) in Hq by lia.
    rewrite Z.pow_succ_r in Hq by lia.
    specialize (IH (n - 1) ltac:(lia) ltac:(lia)). lia.
  - destruct (Z.eq_dec n 0) as [->|Hne]; [cbn in Hq; lia|].
    replace n with (Z.succ (n - 1)) in Hq by lia.
    rewrite Z.pow_succ_r in Hq by lia.
    specialize (IH (n - 1) ltac:(lia) ltac:(lia)). lia.
  - destruct (Z.eq_dec n 0) as [->|Hne]; [cbn in Hq; lia|]. lia.
Qed.

(** An integer from 1 to 2^53 - 1 is a finite double above zero. *)
Lemma float_of_Z_finite (z : Z) :
  0 < z < 2 ^ 53 -> exists m e, float_of_Z z = S754_finite false m e.
Proof.
  intros [H0 H1]. destruct z as [|q|q]; try lia.
  pose proof (digits2_pos_bound q 53 ltac:(lia) H1) as Hd.
  unfold float_of_Z, binary_normalize, binary_round.
  assert (Hf : fexp prec emax (Zpos (digits2_pos q) + 0) = Zpos (digits2_pos q) - 53).
  { unfold fexp, SpecFloat.emin, prec, emax. lia. }
  rewrite Hf. unfold shl_align.
  assert (Hshape : exists mz ez,
             (match Zpos (digits2_pos q) - 53 - 0 with
              | Zneg d => (Pos.iter xO q d, Zpos (digits2_pos q) - 53)
              | _ => (q, 0)
              end) = (mz, ez)
             /\ Zpos (digits2_pos mz) + ez = 53 + ez - 0 /\ -52 <= ez <= 0
             /\ Zpos (digits2_pos mz) = 53).
  { destruct (Zpos (digits2_pos q) - 53 - 0) as [|d|d] eqn:E.
    - exists q, 0. repeat split; lia.
    - lia.
    - eexists. eexists. split; [reflexivity|].
      rewrite digits2_pos_iter_xO. repeat split; lia. }
  destruct Hshape as (mz & ez & -> & _ & Hez & Hdz).
  exists mz, ez. unfold binary_round_aux, shr_fexp.
  assert (Hn : fexp prec emax (Zdigits2 (Zpos mz) + ez) - ez = 0).
  { unfold fexp, SpecFloat.emin, prec, emax, Zdigits2. lia. }
  rewrite Hn. cbn [shr shr_record_of_loc shr_m loc_of_shr_record round_nearest_even].
  rewrite Hn. cbn [shr shr_record_of_loc shr_m].
  replace (ez <=? emax - prec) with true; [reflexivity|].
  symmetry. apply Z.leb_le. unfold emax, prec. lia.
Qed.

Lemma lengthOr1_finite (text : jsstring) :
  Z.of_nat (List.length text) < 2 ^ 53 ->
  exists m e, lengthOr1 text = S754_finite false m e.
Proof.
  intros H. destruct text as [|c t].
  - now exists 4503599627370496%positive, (-52).
  - unfold lengthOr1. apply float_of_Z_finite. cbn [List.length] in *. lia.
Qed.

(** The clamp, for every number. *)
Lemma clamp_within (x : float) :
  is_nan x = false ->
  within_10_42 (Math_max (float_of_Z 10) (Math_min x (float_of_Z 42))) = true.
Proof.
  intros Hx.
  change (float_of_Z 10) with (S754_finite false 5629499534213120 (-49)).
  change (float_of_Z 42) with (S754_finite false 5910974510923776 (-47)).
  set (f10 := S754_finite false 5629499534213120 (-49)).
  set (f42 := S754_finite false 5910974510923776 (-47)).
  assert (H42 : within_10_42 f42 = true) by reflexivity.
  assert (H10 : within_10_42 f10 = true) by reflexivity.
  assert (Hmax42 : Math_max f10 f42 = f42) by reflexivity.
  unfold Math_min.
  destruct (SFcompare x f42) as [[ | | ]|] eqn:C.
  - replace (match x with S754_zero true => x | _ => f42 end) with f42.
    + now rewrite Hmax42.
    + destruct x as [[|]|sx| |sx mx ex]; try reflexivity. discriminate C.
  - unfold Math_max.
    destruct (SFcompare f10 x) as [[ | | ]|] eqn:D.
    + cbn [f10]. unfold within_10_42, SFleb.
      change (float_of_Z 10) with f10. change (float_of_Z 42) with f42.
      now rewrite C, D.
    + unfold within_10_42, SFleb.
      change (float_of_Z 10) with f10. change (float_of_Z 42) with f42.
      now rewrite C, D.
    + exact H10.
    + destruct (SFcompare_none f10 x D); [discriminate|congruence].
  - now rewrite Hmax42.
  - destruct (SFcompare_none x f42 C); [congruence|discriminate].
Qed.

Lemma scaledSize_unfold (contentRect : option (Rect.t float))
    (textSizeMultiplier : float) (box : list float) (text : jsstring) (rectH : float) :
  scaledSize contentRect textSizeMultiplier box text rectH
  = (Math_min (boxHeightPx box rectH * lit_0_55)
       (Math_sqrt (boxArea contentRect box rectH / lengthOr1 text) * lit_1_2)
     * textSizeMultiplier)%js.
Proof. reflexivity. Qed.

(** When the area of the box is not below zero and the multiplier is
    finite and not zero, the size before the clamp is a number. *)
Lemma scaledSize_not_nan (contentRect : option (Rect.t float))
    (textSizeMultiplier : float) (box : list float) (text : jsstring) (rectH : float) :
  notNegative (boxArea contentRect box rectH) = true ->
  isFinite textSizeMultiplier = true -> isZero textSizeMultiplier = false ->
  Z.of_nat (List.length text) < 2 ^ 53 ->
  is_nan (scaledSize contentRect textSizeMultiplier box text rectH) = false.
Proof.
  intros Harea Hfin Hnz Hlen. rewrite scaledSize_unfold.
  destruct textSizeMultiplier as [sm|sm| |sm mm em]; try discriminate.
  destruct (lengthOr1_finite text Hlen) as (ml & el & ->).
  change (@mul float Number_float) with (SFmul prec emax).
  change (@div float Number_float) with (SFdiv prec emax).
  apply SFmul_finite_not_nan, Math_min_not_nan.
  - apply SFmul_finite_not_nan.
    apply notNegative_not_nan in Harea. unfold boxArea in Harea.
    now apply SFmul_not_nan_inv in Harea.
  - apply SFmul_finite_not_nan, notNegative_not_nan, SFsqrt_notNegative.
    now apply SFdiv_notNegative.
Qed.

(** C3, as the code has it: when the pixel area of the box is not below
    zero, the multiplier is finite and not zero, and the text has a length
    a string can have, the font size is within [10, 42]. *)
Theorem getFontSize_within_10_42 (contentRect : option (Rect.t float))
    (textSizeMultiplier : float) (box : list float) (text : jsstring) (rectH : float) :
  notNegative (boxArea contentRect box rectH) = true ->
  isFinite textSizeMultiplier = true -> isZero textSizeMultiplier = false ->
  Z.of_nat (List.length text) < 2 ^ 53 ->
  within_10_42 (getFontSize contentRect textSizeMultiplier box text rectH) = true.
Proof.
  intros Harea Hfin Hnz Hlen. unfold getFontSize.
  apply clamp_within. now apply scaledSize_not_nan.
Qed.

Lemma getFontSize_within_10_42_witness :
  within_10_42
    (getFontSize (Some rect100) (float_of_Z 1) offlineBox (lit "abc") (float_of_Z 100))
  = true.
Proof.
  apply getFontSize_within_10_42; reflexivity.
Defined.

(** C3, counterexample: a box whose [ymax] is smaller than its [ymin] has
    an area below zero; its square root is NaN, and so is the font size.  The
    font size is NaN as well for a multiplier that is NaN, for a flat box
    with an infinite multiplier, and for an unbounded rectangle with a
    multiplier of zero. *)
Lemma getFontSize_inverted_box :
  getFontSize (Some rect100) (float_of_Z 1) invertedBox (lit "a") (float_of_Z 100)
    = S754_nan /\
  within_10_42
    (getFontSize (Some rect100) (float_of_Z 1) invertedBox (lit "a") (float_of_Z 100))
    = false /\
  getFontSize (Some rect100) S754_nan offlineBox (lit "a") (float_of_Z 100)
    = S754_nan /\
  getFontSize (Some rect100) (S754_infinity false) flatBox (lit "a") (float_of_Z 100)
    = S754_nan /\
  getFontSize (Some unboundedRect) (float_of_Z 0) offlineBox (lit "a") (S754_infinity false)
    = S754_nan.
Proof. repeat split; reflexivity. Qed.

(* ------------------------------------------------------------------ *)
(** ** The formulas, for every number type *)

(** The placement formulas hold as written whatever the numbers are, for
    binary64 in particular. *)
Lemma placeBox_formulas {N : Type} `{Number N} (rect : Rect.t N)
    (ymin xmin ymax xmax : N) (rest : list N) :
  placeBox (Some rect) (ymin :: xmin :: ymax :: xmax :: rest)
  = Some (Pixels (Rect.y rect + (ymin / of_Z 1000) * Rect.h rect)%js
                 (Rect.x rect + (xmin / of_Z 1000) * Rect.w rect)%js
                 (((xmax - xmin) / of_Z 1000) * Rect.w rect)%js
                 (((ymax - ymin) / of_Z 1000) * Rect.h rect)%js).
Proof. reflexivity. Qed.

(** So do the crop formulas. *)
Lemma captureLive_formulas {N : Type} `{Number N} `{Truncation N}
    (video : Video N) (shot : Shot N) :
  captureLive video = Some shot ->
  let vw := videoWidth video in
  let vh := videoHeight video in
  let cw := offsetWidth (videoElement video) in
  let ch := offsetHeight (videoElement video) in
  (canvas_width shot = canvas_dimension 300 (sw shot) /\
   canvas_height shot = canvas_dimension 150 (sh shot) /\
   dx shot = of_Z 0 /\ dy shot = of_Z 0 /\ dw shot = sw shot /\ dh shot = sh shot) /\
  ((cw / ch > vw / vh)%js = true ->
     sw shot = vw /\ sh shot = (vw / (cw / ch))%js /\
     sx shot = of_Z 0 /\ sy shot = ((vh - sh shot) / of_Z 2)%js) /\
  ((cw / ch > vw / vh)%js = false ->
     sh shot = vh /\ sw shot = (vh * (cw / ch))%js /\
     sy shot = of_Z 0 /\ sx shot = ((vw - sw shot) / of_Z 2)%js).
Proof.
  unfold captureLive.
  destruct ((2 <=? readyState video) && (videoWidth video > of_Z 0)%js
            && (videoHeight video > of_Z 0)%js); [|discriminate].
  destruct ((offsetWidth (videoElement video) === of_Z 0)%js
            || (offsetHeight (videoElement video) === of_Z 0)%js); [discriminate|].
  destruct (offsetWidth (videoElement video) / offsetHeight (videoElement video)
            > videoWidth video / videoHeight video)%js;
    intros E; injection E as <-; cbn; repeat split; intros; congruence.
Qed.

(** The scenario of a cover-fit 1000 x 500 container on binary64: the
    content rectangle is the container and the box [100,100,300,400] is
    placed at top 50, left 100, width 300, height 100. *)
Example cover_scenario :
  updateContentRect
    (Some {| offsetWidth := float_of_Z 1000; offsetHeight := float_of_Z 500 |})
    true false None true
  = Some (Rect.mk (float_of_Z 0) (float_of_Z 0) (float_of_Z 1000) (float_of_Z 500)) /\
  placeBox
    (Some (Rect.mk (float_of_Z 0) (float_of_Z 0) (float_of_Z 1000) (float_of_Z 500)))
    (List.map float_of_Z [100; 100; 300; 400])
  = Some (Pixels (float_of_Z 50) (float_of_Z 100) (float_of_Z 300) (float_of_Z 100)).
Proof. split; reflexivity. Qed.

(** A 1920 x 1080 video shown in a 400 x 800 element, on binary64. *)
Example crop_scenario :
  option_map (fun s => (sx s, sy s, sw s, sh s))
    (captureLive {| readyState := 4;
                    videoWidth := float_of_Z 1920; videoHeight := float_of_Z 1080;
                    videoElement := {| offsetWidth := float_of_Z 400;
                                       offsetHeight := float_of_Z 800 |} |})
  = Some (float_of_Z 690, float_of_Z 0, float_of_Z 540, float_of_Z 1080).
Proof. reflexivity. Qed.

(* ------------------------------------------------------------------ *)
(** ** Calls only start in auto mode *)

Lemma Forall_removeNth {A} (P : A -> Prop) (i : nat) (l : list A) :
  Forall P l -> Forall P (removeNth i l).
Proof.
  revert i. induction l as [|a l IH]; intros i H; destruct i; cbn; auto;
    inversion H; subst; auto.
Qed.

Lemma saveToHistory_runtime (now : N) (result : TranslationResult) (s : App) :
  inflight (saveToHistory now result s) = inflight s /\
  timers (saveToHistory now result s) = timers s /\
  appState (saveToHistory now result s) = appState s /\
  translationData (saveToHistory now result s) = translationData s.
Proof.
  unfold saveToHistory.
  destruct (isEmpty (items result) && negb (nonempty (summary result))); [auto|].
  destruct (historyUpdate now result (fullTextOf result) (history s)); cbn; auto.
Qed.

Lemma dispatch_startedInAutoMode (JSON_parse : jsstring -> Exc ResultValue)
    (s s' : App) (e : Event) :
  startedInAutoMode s -> dispatch JSON_parse s e = Some s' -> startedInAutoMode s'.
Proof.
  intros [Hc Ht] Hd. unfold startedInAutoMode.
  destruct e; cbn [dispatch] in Hd;
    try (match type of Hd with
         | (if ?b then _ else _) = _ => destruct b eqn:Hb; [|discriminate Hd]
         end; injection Hd as <-).
  - unfold toggleAutoMode.
    destruct (truthy (staticImage s)), (isAutoMode s); cbn; auto.
  - unfold handleManualScan.
    destruct (negb (isAutoMode s) && AppState_eqb (appState s) IDLE); cbn; auto.
    split; [exact Hc|]. apply Forall_app. split; [exact Ht|].
    constructor; [now left|constructor].
  - cbn; auto.
  - unfold toggleScreenShare.
    destruct (negb (isScreenShareSupported s)); [auto|].
    destruct (screenStream s); [cbn; auto|]. destruct granted; cbn; auto.
  - cbn; auto.
  - destruct dataUrl as [[|c r]|]; cbn; auto.
  - cbn; auto.
  - cbn; auto.
  - cbn; auto.
  - cbn; auto.
  - destruct (translationData s) as [data|] eqn:Hdata; [|discriminate Hd].
    destruct (negb (isSettingsOpen s) && nonempty (summary data)); [|discriminate Hd].
    injection Hd as <-. unfold handleManualSave. rewrite Hdata.
    destruct (saveToHistory_runtime now data s) as (-> & -> & _). auto.
  - unfold captureHookArmed in Hb.
    destruct (isAutoMode s) eqn:Hauto; [|discriminate Hb].
    unfold handleFrameCapture_call.
    destruct (AppState_eqb (appState s) SCANNING || isSettingsOpen s); [auto|].
    rewrite Hauto. cbn. split; [|exact Ht].
    apply Forall_app. split; [exact Hc|]. repeat constructor.
  - destruct (nth_error (timers s) i) as [t|]; [|discriminate Hd].
    injection Hd as <-.
    destruct (callback t); cbn; auto using Forall_removeNth.
  - destruct (nth_error (inflight s) i) as [c|] eqn:Hi; [|discriminate Hd].
    injection Hd as <-.
    assert (Hauto : closure_isAutoMode c = true).
    { rewrite Forall_forall in Hc. apply Hc. eapply nth_error_In, Hi. }
    set (s0 := withInflight (removeNth i (inflight s)) s).
    assert (H0 : Forall (fun c => closure_isAutoMode c = true) (inflight s0)
                 /\ Forall (fun t => delay t = 100 \/ delay t = 3000) (timers s0)).
    { cbn. auto using Forall_removeNth. }
    clearbody s0. destruct H0 as [Hc0 Ht0].
    destruct (if closure_useOfflineMode c then translateImageOffline
              else translateImage JSON_parse response) as [[result|]|];
      cbn [handleFrameCapture_resume].
    + destruct (closure_autoSave c && negb (isEmpty (items result))).
      * cbn [setAppState inflight timers].
        destruct (saveToHistory_runtime now result
                    (setTranslationData (Some result) s0)) as (-> & -> & _).
        cbn. auto.
      * cbn. auto.
    + rewrite Hauto. cbn. split; [exact Hc0|].
      apply Forall_app. split; [exact Ht0|]. constructor; [now right|constructor].
    + rewrite Hauto. cbn. split; [exact Hc0|].
      apply Forall_app. split; [exact Ht0|]. constructor; [now right|constructor].
Qed.

(** In every run from the initial state, each awaited call was started
    with auto mode on, manual scans included, and the only delays are the
    100 ms of the trigger button and the 3000 ms of the failure path. *)
Lemma run_startedInAutoMode (JSON_parse : jsstring -> Exc ResultValue)
    (trace : list Event) (s : App) :
  run JSON_parse initialApp trace = Some s -> startedInAutoMode s.
Proof.
  assert (G : forall s0, startedInAutoMode s0 ->
                run JSON_parse s0 trace = Some s -> startedInAutoMode s).
  { induction trace as [|e rest IH]; intros s0 H0 Hr; cbn [run] in Hr.
    - now injection Hr as <-.
    - destruct (dispatch JSON_parse s0 e) as [s1|] eqn:Hd; [|discriminate Hr].
      eapply IH; [|exact Hr]. eapply dispatch_startedInAutoMode; eauto. }
  apply G. split; constructor.
Qed.

(** Switching auto mode on drops a static image, its result and the
    content rectangle. *)
Lemma toggleAutoMode_clears_static (s : App) :
  truthy (staticImage s) = true ->
  let s' := toggleAutoMode s in
  staticImage s' = None /\ translationData s' = None /\ contentRect s' = None /\
  isAutoMode s' = negb (isAutoMode s).
Proof.
  intros H. unfold toggleAutoMode. rewrite H.
  destruct (isAutoMode s) eqn:E; cbn; rewrite E; auto.
Qed.

(* ================================================================== *)
(** * Further properties of the code *)

(* ------------------------------------------------------------------ *)
(** ** Contain fit and crop, in exact arithmetic *)

Local Open Scope Q_scope.

Lemma contain_fit_facts (cw ch nw nh : Q) (video : bool) :
  0 < cw -> 0 < ch -> 0 < nw -> 0 < nh ->
  exists r : Rect.t Q,
    updateContentRect
      (Some {| offsetWidth := cw; offsetHeight := ch |}) true true
      (Some {| naturalWidth := nw; naturalHeight := nh |}) video = Some r /\
    0 <= Rect.x r /\ 0 <= Rect.y r /\
    Rect.x r + Rect.w r <= cw /\ Rect.y r + Rect.h r <= ch /\
    0 < Rect.w r /\ 0 < Rect.h r /\
    Rect.w r * nh == Rect.h r * nw /\
    Rect.x r + Rect.w r / 2 == cw / 2 /\
    Rect.y r + Rect.h r / 2 == ch / 2 /\
    (Rect.w r == cw \/ Rect.h r == ch).
Proof.
  intros Hcw Hch Hnw Hnh.
  unfold updateContentRect.
  cbn [offsetWidth offsetHeight naturalWidth naturalHeight].
  rewrite (strict_eq_Q_false nw Hnw).
  change (@div Q Number_Q) with Qdiv. change (@mul Q Number_Q) with Qmult.
  change (@sub Q Number_Q) with Qminus. change (@of_Z Q Number_Q) with inject_Z.
  change (inject_Z 0) with 0. change (inject_Z 2) with 2.
  pose proof (Qdiv_pos nw nh Hnw Hnh) as Ha.
  pose proof (Qdiv_mult_cancel nw nh Hnh) as Ea.
  pose proof (Qdiv_mult_cancel cw ch Hch) as Eb.
  set (a := nw / nh) in *. set (b := cw / ch) in *.
  destruct (Qlt_le_dec a b) as [Hlt|Hle].
  - rewrite (gt_Q_true b a Hlt).
    eexists. split; [reflexivity|]. cbn [Rect.x Rect.y Rect.w Rect.h].
    assert (Hrw : ch * a < cw).
    { rewrite <- Eb. rewrite (Qmult_comm b ch). now apply Qmult_lt_l. }
    assert (Hpos : 0 < ch * a) by now apply Qmult_lt_0_compat.
    assert (E1 : (cw - ch * a) / 2 + ch * a == (cw + ch * a) / 2) by field.
    assert (E2 : (cw - ch * a) / 2 + ch * a / 2 == cw / 2) by field.
    assert (E3 : 0 + ch / 2 == ch / 2) by field.
    assert (E4 : ch * a * nh == ch * nw) by (rewrite <- Ea; ring).
    repeat split; try lra.
    + apply Qle_shift_div_l; lra.
    + rewrite E1. apply Qle_shift_div_r; lra.
  - rewrite (gt_Q_false b a Hle).
    eexists. split; [reflexivity|]. cbn [Rect.x Rect.y Rect.w Rect.h].
    pose proof (Qdiv_pos cw a Hcw Ha) as Hrh.
    pose proof (Qdiv_mult_cancel cw a Ha) as Erh.
    set (rh := cw / a) in *.
    assert (Hle' : rh <= ch).
    { apply (Qmult_le_r _ _ a Ha). rewrite Erh, <- Eb.
      rewrite (Qmult_comm b ch). apply Qmult_le_l; lra. }
    assert (E1 : (ch - rh) / 2 + rh == (ch + rh) / 2) by field.
    assert (E2 : (ch - rh) / 2 + rh / 2 == ch / 2) by field.
    assert (E3 : 0 + cw / 2 == cw / 2) by field.
    assert (E4 : cw * nh == rh * nw).
    { rewrite <- Ea, <- Erh. ring. }
    repeat split; try lra.
    + apply Qle_shift_div_l; lra.
    + rewrite E1. apply Qle_shift_div_r; lra.
Qed.

(** X1.  The contain-fit rectangle of a static image lies inside the
    container, is centred in it, spans it on one axis and has the aspect
    ratio of the image. *)
Theorem contain_fit_rectangle (cw ch nw nh : Q) (video : bool) :
  0 < cw -> 0 < ch -> 0 < nw -> 0 < nh ->
  exists r : Rect.t Q,
    updateContentRect
      (Some {| offsetWidth := cw; offsetHeight := ch |}) true true
      (Some {| naturalWidth := nw; naturalHeight := nh |}) video = Some r /\
    0 <= Rect.x r /\ 0 <= Rect.y r /\
    Rect.x r + Rect.w r <= cw /\ Rect.y r + Rect.h r <= ch /\
    0 < Rect.w r /\ 0 < Rect.h r /\
    Rect.w r * nh == Rect.h r * nw /\
    Rect.x r + Rect.w r / 2 == cw / 2 /\
    Rect.y r + Rect.h r / 2 == ch / 2 /\
    (Rect.w r == cw \/ Rect.h r == ch).
Proof. exact (contain_fit_facts cw ch nw nh video). Qed.

Lemma contain_fit_rectangle_witness :
  exists r : Rect.t Q,
    updateContentRect
      (Some {| offsetWidth := 800; offsetHeight := 400 |}) true true
      (Some {| naturalWidth := 1200; naturalHeight := 1200 |}) false = Some r /\
    Rect.x r + Rect.w r <= 800 /\ Rect.w r * 1200 == Rect.h r * 1200.
Proof.
  destruct (contain_fit_rectangle 800 400 1200 1200 false)
    as (r & Hr & _ & _ & Hx & _ & _ & _ & Ha & _); try reflexivity.
  exists r. auto.
Defined.

Local Close Scope Q_scope.

Local Open Scope Q_scope.

(** The shot of a ready video with positive sizes, by cases. *)
Lemma captureLive_cases (vw vh cw ch : Q) (rs : Z) :
  (2 <= rs)%Z -> 0 < vw -> 0 < vh -> 0 < cw -> 0 < ch ->
  captureLive {| readyState := rs; videoWidth := vw; videoHeight := vh;
                 videoElement := {| offsetWidth := cw; offsetHeight := ch |} |}
  = Some (if Qlt_le_dec (vw / vh) (cw / ch)
          then {| canvas_width := canvas_dimension 300 vw;
                  canvas_height := canvas_dimension 150 (vw / (cw / ch));
                  sx := 0; sy := (vh - vw / (cw / ch)) / 2;
                  sw := vw; sh := vw / (cw / ch);
                  dx := 0; dy := 0; dw := vw; dh := vw / (cw / ch) |}
          else {| canvas_width := canvas_dimension 300 (vh * (cw / ch));
                  canvas_height := canvas_dimension 150 vh;
                  sx := (vw - vh * (cw / ch)) / 2; sy := 0;
                  sw := vh * (cw / ch); sh := vh;
                  dx := 0; dy := 0; dw := vh * (cw / ch); dh := vh |}).
Proof.
  intros Hrs Hvw Hvh Hcw Hch.
  unfold captureLive.
  cbn [readyState videoWidth videoHeight videoElement offsetWidth offsetHeight].
  replace (2 <=? rs)%Z with true by (symmetry; now apply Z.leb_le).
  rewrite (gt_Q_true vw (of_Z 0)) by exact Hvw.
  rewrite (gt_Q_true vh (of_Z 0)) by exact Hvh.
  rewrite (strict_eq_Q_false cw Hcw), (strict_eq_Q_false ch Hch).
  cbn [andb orb].
  change (@div Q Number_Q) with Qdiv. change (@mul Q Number_Q) with Qmult.
  change (@sub Q Number_Q) with Qminus. change (@of_Z Q Number_Q) with inject_Z.
  change (inject_Z 0) with 0. change (inject_Z 2) with 2.
  destruct (Qlt_le_dec (vw / vh) (cw / ch)) as [Hlt|Hle].
  - now rewrite (gt_Q_true (cw / ch) (vw / vh)) by exact Hlt.
  - now rewrite (gt_Q_false (cw / ch) (vw / vh)) by exact Hle.
Qed.

(** X2.  The crop window of [capture] lies inside the video frame and is not
    empty: [drawImage] never reads outside the source. *)
Theorem crop_inside_video (vw vh cw ch : Q) (rs : Z) :
  (2 <= rs)%Z -> 0 < vw -> 0 < vh -> 0 < cw -> 0 < ch ->
  exists shot : Shot Q,
    captureLive {| readyState := rs; videoWidth := vw; videoHeight := vh;
                   videoElement := {| offsetWidth := cw; offsetHeight := ch |} |}
      = Some shot /\
    0 <= sx shot /\ 0 <= sy shot /\
    0 < sw shot /\ 0 < sh shot /\
    sx shot + sw shot <= vw /\ sy shot + sh shot <= vh /\
    (sw shot == vw \/ sh shot == vh).
Proof.
  intros Hrs Hvw Hvh Hcw Hch.
  rewrite (captureLive_cases vw vh cw ch rs Hrs Hvw Hvh Hcw Hch).
  pose proof (Qdiv_pos cw ch Hcw Hch) as Hb.
  pose proof (Qdiv_pos vw vh Hvw Hvh) as Ha.
  pose proof (Qdiv_mult_cancel vw vh Hvh) as Ea.
  set (a := vw / vh) in *. set (b := cw / ch) in *.
  destruct (Qlt_le_dec a b) as [Hlt|Hle]; eexists; (split; [reflexivity|]);
    cbn [sx sy sw sh].
  - pose proof (Qdiv_pos vw b Hvw Hb) as Hsh.
    pose proof (Qdiv_mult_cancel vw b Hb) as Esh.
    set (h := vw / b) in *.
    assert (Hle' : h <= vh).
    { apply (Qmult_le_r _ _ b Hb). rewrite Esh, <- Ea.
      rewrite (Qmult_comm a vh), (Qmult_comm vh b), (Qmult_comm b vh).
      apply Qmult_le_l; lra. }
    assert (E1 : (vh - h) / 2 + h == (vh + h) / 2) by field.
    repeat split; try lra.
    + apply Qle_shift_div_l; lra.
    + rewrite E1. apply Qle_shift_div_r; lra.
  - assert (Hsw : 0 < vh * b) by now apply Qmult_lt_0_compat.
    assert (Hle' : vh * b <= vw).
    { rewrite <- Ea. rewrite (Qmult_comm a vh). apply Qmult_le_l; lra. }
    assert (E1 : (vw - vh * b) / 2 + vh * b == (vw + vh * b) / 2) by field.
    repeat split; try lra.
    + apply Qle_shift_div_l; lra.
    + rewrite E1. apply Qle_shift_div_r; lra.
Qed.

Lemma crop_inside_video_witness :
  exists shot : Shot Q,
    captureLive {| readyState := 4; videoWidth := 1920; videoHeight := 1080;
                   videoElement := {| offsetWidth := 400; offsetHeight := 800 |} |}
      = Some shot /\
    0 <= sx shot /\ sx shot + sw shot <= 1920.
Proof.
  destruct (crop_inside_video 1920 1080 400 800 4)
    as (shot & Hc & H1 & _ & _ & _ & H2 & _); [lia|reflexivity..|].
  exists shot. auto.
Defined.

(** One axis of a placement: a span inside [0, 1000] stays inside the
    rectangle. *)
Lemma placed_inside (lo hi o len : Q) :
  0 <= lo -> lo <= hi -> hi <= 1000 -> 0 <= len ->
  o <= o + (lo / 1000) * len /\
  o + (lo / 1000) * len + ((hi - lo) / 1000) * len <= o + len.
Proof.
  intros H0 H1 H2 Hl.
  pose proof (scale_nonneg 0 lo len H0 Hl) as A1.
  pose proof (scale_nonneg hi 1000 len H2 Hl) as A3.
  assert (Z0 : 0 / 1000 * len == 0) by field.
  assert (Z1 : 1000 / 1000 * len == len) by field.
  assert (E1 : o + lo / 1000 * len + (hi - lo) / 1000 * len == o + hi / 1000 * len)
    by field.
  rewrite Z0 in A1. rewrite Z1 in A3. split; [lra|]. rewrite E1. lra.
Qed.

(** X3.  In exact arithmetic and whatever the fit, a box inside
    [0,1000] x [0,1000] is drawn inside the container: inside the
    letterboxed image for a static image, inside the whole container for a
    live source.  The doubles that the code computes follow only up to
    rounding: in a live 667 x 667 container the box [100,0,1000,0] ends
    below the container. *)
Theorem overlay_inside_container (cw ch nw nh ymin xmin ymax xmax : Q)
    (static : bool) :
  0 < cw -> 0 < ch -> 0 < nw -> 0 < nh ->
  0 <= ymin -> ymin <= ymax -> ymax <= 1000 ->
  0 <= xmin -> xmin <= xmax -> xmax <= 1000 ->
  (exists (r : Rect.t Q) (top left width height : Q),
    updateContentRect
      (Some {| offsetWidth := cw; offsetHeight := ch |}) true static
      (Some {| naturalWidth := nw; naturalHeight := nh |}) true = Some r /\
    placeBox (Some r) [ymin; xmin; ymax; xmax]
      = Some (Pixels top left width height) /\
    0 <= top /\ 0 <= left /\ top + height <= ch /\ left + width <= cw) /\
  (exists (r : Rect.t float) (top left width height : float),
    updateContentRect
      (Some {| offsetWidth := float_of_Z 667; offsetHeight := float_of_Z 667 |})
      true false None true = Some r /\
    placeBox (Some r) (List.map float_of_Z [100; 0; 1000; 0]%Z)
      = Some (Pixels top left width height) /\
    (top + height > float_of_Z 667)%js = true).
Proof.
  intros Hcw Hch Hnw Hnh Hy0 Hy Hy1 Hx0 Hx Hx1.
  split; [|do 5 eexists; split; [reflexivity|]; split; reflexivity].
  assert (G : forall r : Rect.t Q,
             0 <= Rect.x r -> 0 <= Rect.y r ->
             Rect.x r + Rect.w r <= cw -> Rect.y r + Rect.h r <= ch ->
             0 <= Rect.w r -> 0 <= Rect.h r ->
             exists top left width height : Q,
               placeBox (Some r) [ymin; xmin; ymax; xmax]
                 = Some (Pixels top left width height) /\
               0 <= top /\ 0 <= left /\ top + height <= ch /\ left + width <= cw).
  { intros [x y w h]. cbn [Rect.x Rect.y Rect.w Rect.h]. intros Rx Ry Rxw Ryh Rw Rh.
    exists (y + (ymin / 1000) * h), (x + (xmin / 1000) * w),
           (((xmax - xmin) / 1000) * w), (((ymax - ymin) / 1000) * h).
    split; [reflexivity|].
    destruct (placed_inside ymin ymax y h Hy0 Hy Hy1 Rh) as [Y1 Y2].
    destruct (placed_inside xmin xmax x w Hx0 Hx Hx1 Rw) as [X1 X2].
    repeat split; lra. }
  destruct static.
  - destruct (contain_fit_facts cw ch nw nh true Hcw Hch Hnw Hnh)
      as (r & Hr & Rx & Ry & Rxw & Ryh & Rw & Rh & _).
    destruct (G r Rx Ry Rxw Ryh ltac:(lra) ltac:(lra)) as (t & l & w & h & Hp & Hb).
    exists r, t, l, w, h. auto.
  - destruct (G (Rect.mk 0 0 cw ch)) as (t & l & w & h & Hp & Hb);
      cbn [Rect.x Rect.y Rect.w Rect.h]; try lra.
    exists (Rect.mk 0 0 cw ch), t, l, w, h. split; [reflexivity|]. auto.
Qed.

Lemma overlay_inside_container_witness :
  exists (r : Rect.t Q) (top left width height : Q),
    updateContentRect
      (Some {| offsetWidth := 800; offsetHeight := 400 |}) true true
      (Some {| naturalWidth := 1200; naturalHeight := 1200 |}) true = Some r /\
    placeBox (Some r) [350; 200; 500; 800]
      = Some (Pixels top left width height) /\
    0 <= top /\ 0 <= left /\ top + height <= 400 /\ left + width <= 800.
Proof.
  apply (overlay_inside_container 800 400 1200 1200 350 200 500 800 true);
    try reflexivity; apply Qle_bool_iff; reflexivity.
Defined.

Local Close Scope Q_scope.

(* ------------------------------------------------------------------ *)
(** ** Edge cases of capture and placement *)

(** X4.  [capture] hands on a static image as it is, whatever the video is
    doing.  Without one it emits a frame exactly when there are a video, a
    canvas and a drawing context, the video is ready with a width and a
    height above zero, and neither size of the element equals zero; in
    every other case it emits nothing. *)
Theorem capture_emits (staticImage : option jsstring)
    (video : option (Video float)) (canvas ctx : bool) :
  (truthy staticImage = true ->
   capture staticImage video canvas ctx = option_map StaticFrame staticImage) /\
  (truthy staticImage = false ->
   (isSome (capture staticImage video canvas ctx) = true <->
    exists v, video = Some v /\ canvas = true /\ ctx = true /\
              (2 <= readyState v)%Z /\
              isPositive (videoWidth v) = true /\
              isPositive (videoHeight v) = true /\
              SFeqb (offsetWidth (videoElement v)) (float_of_Z 0) = false /\
              SFeqb (offsetHeight (videoElement v)) (float_of_Z 0) = false)).
Proof.
  split.
  - destruct staticImage as [[|c s]|]; cbn; try discriminate. reflexivity.
  - intros Hstatic.
    assert (E : capture staticImage video canvas ctx
                = match video, canvas with
                  | Some v, true =>
                      match captureLive v with
                      | Some shot => if ctx then Some (LiveFrame shot) else None
                      | None => None
                      end
                  | _, _ => None
                  end).
    { destruct staticImage as [[|c s]|]; try reflexivity. discriminate Hstatic. }
    rewrite E. clear E.
    destruct video as [v|]; [|split; [discriminate|intros (v & H & _); discriminate]].
    destruct canvas;
      [|split; [discriminate|intros (v' & _ & H & _); discriminate]].
    unfold captureLive.
    change (@gt float Number_float (videoWidth v) (of_Z 0))
      with (isPositive (videoWidth v)).
    change (@gt float Number_float (videoHeight v) (of_Z 0))
      with (isPositive (videoHeight v)).
    change (@strict_eq float Number_float (offsetWidth (videoElement v)) (of_Z 0))
      with (SFeqb (offsetWidth (videoElement v)) (float_of_Z 0)).
    change (@strict_eq float Number_float (offsetHeight (videoElement v)) (of_Z 0))
      with (SFeqb (offsetHeight (videoElement v)) (float_of_Z 0)).
    destruct (Z.leb_spec 2 (readyState v)) as [Hrs|Hrs];
      destruct (isPositive (videoWidth v)) eqn:Hw;
      destruct (isPositive (videoHeight v)) eqn:Hh;
      destruct (SFeqb (offsetWidth (videoElement v)) (float_of_Z 0)) eqn:Hcw;
      destruct (SFeqb (offsetHeight (videoElement v)) (float_of_Z 0)) eqn:Hch;
      cbn [andb orb];
      try (split; [discriminate|
                   intros (v' & Hv & _ & _ & H1 & H2 & H3 & H4 & H5);
                   injection Hv as <-; try lia; congruence]).
    destruct ((offsetWidth (videoElement v) / offsetHeight (videoElement v)
               > videoWidth v / videoHeight v)%js);
      (destruct ctx; cbn [isSome];
       [split; [intros _; exists v; repeat split; assumption|reflexivity]
       |split; [discriminate|intros (v' & _ & _ & H & _); discriminate]]).
Qed.

Lemma capture_emits_witness :
  capture (Some frame1) (@None (Video float)) false false
  = Some (StaticFrame frame1).
Proof.
  apply (capture_emits (Some frame1) None false false). reflexivity.
Defined.

(** X5.  An item whose box has fewer than four numbers is skipped, and only
    then; numbers after the fourth are ignored. *)
Theorem placeBox_skips_short_boxes {N : Type} `{Number N}
    (contentRect : option (Rect.t N)) (box : list N) :
  (placeBox contentRect box = None <-> (List.length box < 4)%nat) /\
  placeBox contentRect box = placeBox contentRect (firstn 4 box).
Proof.
  destruct box as [|a [|b [|c [|d rest]]]]; cbn [placeBox List.length firstn];
    (split; [split; [intros E; try discriminate E; lia|intros E; try reflexivity; lia]
            |reflexivity]).
Qed.

Local Open Scope Q_scope.

(** X6.  Without a content rectangle a box is placed in percentages of the
    overlay, which is where the pixel formulas put it when the content
    rectangle is the whole overlay. *)
Theorem percent_fallback_matches_pixels (W H ymin xmin ymax xmax : Q) (rest : list Q) :
  exists tp lp wp hp top left width height : Q,
    placeBox None (ymin :: xmin :: ymax :: xmax :: rest)
      = Some (Percent tp lp wp hp) /\
    placeBox (Some (Rect.mk 0 0 W H)) (ymin :: xmin :: ymax :: xmax :: rest)
      = Some (Pixels top left width height) /\
    top == tp / 100 * H /\ left == lp / 100 * W /\
    width == wp / 100 * W /\ height == hp / 100 * H.
Proof.
  exists (ymin / 10), (xmin / 10), ((xmax - xmin) / 10), ((ymax - ymin) / 10).
  exists (0 + (ymin / 1000) * H), (0 + (xmin / 1000) * W),
         (((xmax - xmin) / 1000) * W), (((ymax - ymin) / 1000) * H).
  split; [reflexivity|]. split; [reflexivity|].
  repeat split; field.
Qed.



Local Close Scope Q_scope.

(* ------------------------------------------------------------------ *)
(** ** The clamp of the font size *)

Lemma SFcompare_antisym (a b : float) (c : comparison) :
  SFcompare a b = Some c -> SFcompare b a = Some (CompOpp c).
Proof.
  destruct a as [sa|sa| |sa ma ea], b as [sb|sb| |sb mb eb]; cbn;
    try discriminate; intros E; injection E as <-;
    try (destruct sa; reflexivity); try (destruct sb; reflexivity);
    try (destruct sa, sb; reflexivity).
  destruct sa, sb; try reflexivity;
    rewrite (Z.compare_antisym ea eb);
    destruct (ea ?= eb)%Z; cbn; try reflexivity;
    rewrite (Pos.compare_cont_antisym ma mb Eq); cbn;
    destruct (Pos.compare_cont Eq ma mb); reflexivity.
Qed.

Lemma SFcompare_eq_finite (x : float) (m : positive) (e : Z) :
  SFcompare x (S754_finite false m e) = Some Eq -> x = S754_finite false m e.
Proof.
  destruct x as [sx|sx| |sx mx ex]; cbn; try discriminate.
  - destruct sx; discriminate.
  - destruct sx; [discriminate|].
    destruct (ex ?= e)%Z eqn:Ce; try discriminate.
    intros E. injection E as E.
    apply Z.compare_eq in Ce. apply Pos.compare_eq in E. now subst.
Qed.

(** What is below a number is below every number with a larger exponent. *)
Lemma SFcompare_lt_trans_exp (x : float) (m1 m2 : positive) (e1 e2 : Z) :
  (e1 < e2)%Z ->
  SFcompare x (S754_finite false m1 e1) = Some Lt ->
  SFcompare x (S754_finite false m2 e2) = Some Lt.
Proof.
  intros He.
  destruct x as [sx|sx| |sx mx ex]; unfold SFcompare; try discriminate;
    try (destruct sx; congruence).
  destruct sx; [reflexivity|].
  destruct (ex ?= e1)%Z eqn:C1; try discriminate; intros _.
  - apply Z.compare_eq in C1. subst.
    change ((e1 ?= e2)%Z = Lt) in He. now rewrite He.
  - assert (C2 : (ex ?= e2)%Z = Lt).
    { change (ex < e1)%Z in C1. change (ex < e2)%Z. lia. }
    now rewrite C2.
Qed.

(** Below 10 is below 42. *)
Lemma below_10_below_42 (x : float) :
  SFcompare x (float_of_Z 10) = Some Lt -> SFcompare x (float_of_Z 42) = Some Lt.
Proof.
  apply (SFcompare_lt_trans_exp x 5629499534213120 5910974510923776 (-49) (-47)).
  reflexivity.
Qed.

(** X8.  The font size is the size before the clamp when that lies in
    [10, 42], is 10 below and 42 above, and is NaN exactly when the size
    before the clamp is NaN. *)
Theorem getFontSize_clamp (contentRect : option (Rect.t float))
    (textSizeMultiplier : float) (box : list float) (text : jsstring) (rectH : float) :
  let size := scaledSize contentRect textSizeMultiplier box text rectH in
  let fontSize := getFontSize contentRect textSizeMultiplier box text rectH in
  (within_10_42 size = true -> fontSize = size) /\
  (SFltb size (float_of_Z 10) = true -> fontSize = float_of_Z 10) /\
  (SFltb (float_of_Z 42) size = true -> fontSize = float_of_Z 42) /\
  is_nan fontSize = is_nan size.
Proof.
  cbv zeta. unfold getFontSize.
  generalize (scaledSize contentRect textSizeMultiplier box text rectH). intros x.
  change (@of_Z float Number_float 10) with (float_of_Z 10).
  change (@of_Z float Number_float 42) with (float_of_Z 42).
  assert (Hmax42 : Math_max (float_of_Z 10) (float_of_Z 42) = float_of_Z 42)
    by reflexivity.
  repeat split.
  - unfold within_10_42, SFleb. intros H. apply andb_true_iff in H.
    destruct H as [H10 H42].
    destruct (SFcompare x (float_of_Z 42)) as [[ | | ]|] eqn:C42; try discriminate.
    + apply SFcompare_eq_finite in C42. subst x. reflexivity.
    + unfold Math_min. rewrite C42. unfold Math_max.
      destruct (SFcompare (float_of_Z 10) x) as [[ | | ]|] eqn:C10;
        try discriminate; reflexivity.
  - unfold SFltb. intros H.
    destruct (SFcompare x (float_of_Z 10)) as [[ | | ]|] eqn:C10; try discriminate.
    unfold Math_min. rewrite (below_10_below_42 x C10).
    unfold Math_max. rewrite (SFcompare_antisym _ _ _ C10). reflexivity.
  - unfold SFltb. intros H.
    destruct (SFcompare (float_of_Z 42) x) as [[ | | ]|] eqn:C42; try discriminate.
    unfold Math_min. rewrite (SFcompare_antisym _ _ _ C42). cbn [CompOpp].
    exact Hmax42.
  - destruct (is_nan x) eqn:Hx.
    + destruct x; try discriminate Hx. reflexivity.
    + pose proof (clamp_within x Hx) as Hin.
      destruct (Math_max (float_of_Z 10) (Math_min x (float_of_Z 42)));
        try reflexivity. discriminate Hin.
Qed.

Lemma getFontSize_clamp_witness :
  getFontSize (Some rect100) (float_of_Z 1) offlineBox (lit "abc") (float_of_Z 100)
  = float_of_Z 10.
Proof.
  destruct (getFontSize_clamp (Some rect100) (float_of_Z 1) offlineBox (lit "abc")
              (float_of_Z 100)) as (_ & Hlow & _).
  apply Hlow. vm_compute. reflexivity.
Defined.

(* ------------------------------------------------------------------ *)
(** ** Cleaning the response text *)

Lemma fenceMatch_plain (s : jsstring) : noBacktick s = true -> fenceMatch s = None.
Proof.
  intros Hs. unfold fenceMatch.
  destruct s as [|c r]; [reflexivity|].
  rewrite (fence_open_head c r (noBacktick_In (c :: r) c Hs (or_introl eq_refl))).
  destruct (dropSpaces_head (c :: r)) as [->|(d & t & E & _)]; [reflexivity|].
  assert (Hd : N.eqb 96 d = false).
  { apply (noBacktick_In (dropSpaces (c :: r))).
    - now apply noBacktick_dropSpaces.
    - rewrite E. now left. }
  rewrite E, (fence_close_head d t Hd). reflexivity.
Qed.

Lemma replaceFences_plain (s : jsstring) :
  noBacktick s = true -> replaceFences O s = s.
Proof.
  induction s as [|c r IH]; [reflexivity|]. intros Hs.
  change (replaceFences O (c :: r))
    with (match fenceMatch (c :: r) with
          | Some n => replaceFences (Nat.pred n) r
          | None => c :: replaceFences O r
          end).
  rewrite (fenceMatch_plain _ Hs). f_equal. apply IH.
  cbn in Hs. apply andb_true_iff in Hs. tauto.
Qed.

(** X9.  A response text without backticks is only trimmed before it is
    parsed. *)
Theorem cleanText_without_fence (JSON_parse : jsstring -> Exc ResultValue)
    (text : jsstring) :
  noBacktick text = true ->
  cleanText text = trim text /\
  (text <> [] ->
   translateImage JSON_parse (Ok (Some text))
   = try_catch (JSON_parse (trim text)) (Ok (Some invalidFormatResult))).
Proof.
  intros Hs.
  assert (E : cleanText text = trim text).
  { unfold cleanText. now rewrite replaceFences_plain. }
  split; [exact E|]. intros Hne. destruct text as [|c t]; [congruence|].
  unfold translateImage, bind. rewrite E.
  destruct (JSON_parse (trim (c :: t))); reflexivity.
Qed.

Lemma cleanText_without_fence_witness :
  cleanText (lit "  {}  ") = lit "{}".
Proof.
  destruct (cleanText_without_fence parseBraces (lit "  {}  ")) as [E _];
    [reflexivity|].
  rewrite E. reflexivity.
Defined.

Lemma noBacktick_app (a b : jsstring) :
  noBacktick (a ++ b) = noBacktick a && noBacktick b.
Proof. apply forallb_app. Qed.

Lemma allSpaces_noBacktick (w : jsstring) : allSpaces w = true -> noBacktick w = true.
Proof.
  unfold allSpaces, noBacktick. rewrite !forallb_forall. intros H c Hc.
  rewrite N.eqb_sym. now rewrite (space_not_backtick c (H c Hc)).
Qed.

(** X10.  White space in front of the opening fence goes to the second
    alternative of the expression, which takes the backticks and leaves the
    word [json] in the text: what is parsed then starts with [json]. *)
Theorem cleanText_space_before_fence (w ws1 body ws2 : jsstring) :
  w <> [] -> allSpaces w = true ->
  allSpaces ws1 = true -> allSpaces ws2 = true -> noBacktick body = true ->
  cleanText (w ++ fenced ws1 body ws2) = trimEnd (lit "json" ++ ws1 ++ body) /\
  exists rest, cleanText (w ++ fenced ws1 body ws2) = lit "json" ++ rest.
Proof.
  intros Hne Hw H1 H2 Hb.
  assert (E : cleanText (w ++ fenced ws1 body ws2)
              = trimEnd (lit "json" ++ ws1 ++ body)).
  { unfold cleanText, fenced.
    set (tail := lit "json" ++ ws1 ++ body ++ ws2 ++ lit "```").
    change (w ++ lit "```json" ++ ws1 ++ body ++ ws2 ++ lit "```")
      with (w ++ lit "```" ++ tail).
    assert (Hm : fenceMatch (w ++ lit "```" ++ tail)
                 = Some (S (List.length w + 2))).
    { unfold fenceMatch.
      replace (startsWith (lit "```json") (w ++ lit "```" ++ tail)) with false.
      2:{ destruct w as [|c w']; [congruence|].
          cbn in Hw. apply andb_true_iff in Hw. destruct Hw as [Hc _].
          apply eq_sym, fence_open_head, space_not_backtick, Hc. }
      rewrite dropSpaces_spaces by exact Hw.
      rewrite countSpaces_spaces by exact Hw.
      cbn. f_equal. lia. }
    rewrite (replaceFences_match _ _ Hm).
    replace (skipn (S (List.length w + 2)) (w ++ lit "```" ++ tail)) with tail.
    2:{ replace (S (List.length w + 2)) with (List.length w + 3)%nat by lia.
        rewrite skipn_app, skipn_all2 by lia.
        replace (List.length w + 3 - List.length w)%nat with 3%nat by lia.
        reflexivity. }
    unfold tail.
    replace (lit "json" ++ ws1 ++ body ++ ws2 ++ lit "```")
      with ((lit "json" ++ ws1 ++ body) ++ ws2 ++ lit "```")
      by (now rewrite <- !app_assoc).
    rewrite replaceFences_body; [|clear - H1 Hb|exact H2].
    - assert (EX : trim (lit "json" ++ ws1 ++ body)
                   = trimEnd (lit "json" ++ ws1 ++ body))
        by (rewrite trim_trimEnd; reflexivity).
      rewrite <- EX. apply trim_idem.
    - rewrite !noBacktick_app, Hb, (allSpaces_noBacktick ws1 H1). reflexivity. }
  split; [exact E|]. rewrite E.
  cbn [lit List.map list_ascii_of_string app trimEnd allSpaces forallb].
  cbn. eexists. reflexivity.
Qed.

Lemma cleanText_space_before_fence_witness :
  cleanText ([10%N] ++ fenced [10%N] (lit "{}") [10%N]) = lit "json" ++ [10%N] ++ lit "{}".
Proof.
  assert (Hne : [10%N] <> []) by discriminate.
  destruct (cleanText_space_before_fence [10%N] [10%N] (lit "{}") [10%N] Hne
              eq_refl eq_refl eq_refl eq_refl) as [E _].
  exact (eq_trans E eq_refl).
Defined.

(* ------------------------------------------------------------------ *)
(** ** When a call settles *)

Lemma resume_with_result (now : N) (c : Pending) (result : TranslationResult)
    (s : App) :
  appState (handleFrameCapture_resume now c (Ok (Some result)) s) = IDLE /\
  translationData (handleFrameCapture_resume now c (Ok (Some result)) s) = Some result.
Proof.
  cbn [handleFrameCapture_resume].
  destruct (closure_autoSave c && negb (isEmpty (items result))).
  - destruct (saveToHistory_runtime now result (setTranslationData (Some result) s))
      as (_ & _ & _ & Hd).
    split; [reflexivity|]. cbn [setAppState translationData]. rewrite Hd. reflexivity.
  - split; reflexivity.
Qed.

(** X11.  When an awaited call settles, the scan state is [IDLE] and a
    result is on display after an offline call, after every failure that
    [translateImage] turns into a fallback result (a rejected request, a
    missing or empty text, a text that does not parse) and after a text
    that parses to a result of the declared type; it is [ERROR], the
    display unchanged and the timer back to [IDLE] set, after an online
    call whose text parses to a falsy value such as [null].  A parsed value
    of another shape is no value of [ResultValue]: nothing is said of
    it. *)
Theorem settled_call_state (JSON_parse : jsstring -> Exc ResultValue)
    (s s' : App) (i : nat) (c : Pending) (response : Exc (option jsstring)) (now : N) :
  nth_error (inflight s) i = Some c ->
  dispatch JSON_parse s (InferenceSettled i response now) = Some s' ->
  (closure_useOfflineMode c = true ->
     appState s' = IDLE /\ translationData s' = Some offlineResult) /\
  (closure_useOfflineMode c = false ->
     (response = Throw ->
        appState s' = IDLE /\ translationData s' = Some connectionErrorResult) /\
     (response = Ok None \/ response = Ok (Some []) ->
        appState s' = IDLE /\ translationData s' = Some emptyResponseResult) /\
     (forall text, response = Ok (Some text) -> text <> [] ->
        (JSON_parse (cleanText text) = Throw ->
           appState s' = IDLE /\ translationData s' = Some invalidFormatResult) /\
        (forall result, JSON_parse (cleanText text) = Ok (Some result) ->
           appState s' = IDLE /\ translationData s' = Some result) /\
        (JSON_parse (cleanText text) = Ok None ->
           appState s' = ERROR /\ translationData s' = translationData s /\
           timers s'
           = timers s ++ [{| delay := if closure_isAutoMode c then 3000 else 2000;
                             callback := SetAppState IDLE |}]))).
Proof.
  intros Hi Hd. cbn [dispatch] in Hd. rewrite Hi in Hd. injection Hd as <-.
  set (s0 := withInflight (removeNth i (inflight s)) s).
  split; intros Hoff; rewrite Hoff.
  - exact (resume_with_result now c offlineResult s0).
  - split; [|split].
    + intros ->. exact (resume_with_result now c connectionErrorResult s0).
    + intros [-> | ->]; exact (resume_with_result now c emptyResponseResult s0).
    + intros text -> Hne. destruct text as [|ch t]; [congruence|].
      unfold translateImage, bind, try_catch.
      split; [|split].
      * intros ->. exact (resume_with_result now c invalidFormatResult s0).
      * intros result ->. exact (resume_with_result now c result s0).
      * intros ->. cbn [handleFrameCapture_resume].
        destruct (closure_isAutoMode c); repeat split.
Qed.

Lemma settled_call_state_witness :
  exists s',
    dispatch parseNull scanningApp
      (InferenceSettled 0 (Ok (Some (lit "null"))) 1700000000000) = Some s' /\
    appState s' = ERROR /\
    List.map delay (timers s') = [3000%Z].
Proof.
  eexists. split; [reflexivity|].
  destruct (settled_call_state parseNull scanningApp _ 0 firstCall
              (Ok (Some (lit "null"))) 1700000000000 eq_refl eq_refl)
    as (_ & Hon).
  destruct (Hon eq_refl) as (_ & _ & Htext).
  assert (Hne : lit "null" <> []) by discriminate.
  destruct (Htext (lit "null") eq_refl Hne) as (_ & _ & Hnull).
  destruct (Hnull eq_refl) as (He & _ & Ht).
  split; [exact He|]. rewrite Ht. reflexivity.
Defined.

(** X12.  A result that arrives is put on display whatever is on display and
    whatever the source has become, and the scan state becomes [IDLE].  It
    goes to the history only when it has items and auto-save was on when
    the scan started; a result without items leaves history and store as
    they are. *)
Theorem result_arrival (now : N) (c : Pending) (result : TranslationResult) (s : App) :
  let s' := handleFrameCapture_resume now c (Ok (Some result)) s in
  translationData s' = Some result /\
  appState s' = IDLE /\
  staticImage s' = staticImage s /\
  isAutoMode s' = isAutoMode s /\
  timers s' = timers s /\
  (closure_autoSave c = false \/ items result = [] ->
   history s' = history s /\ localStorage_history s' = localStorage_history s) /\
  (closure_autoSave c = true -> items result <> [] ->
   history s' = history (saveToHistory now result s) /\
   localStorage_history s' = localStorage_history (saveToHistory now result s)).
Proof.
  cbv zeta. cbn [handleFrameCapture_resume].
  assert (Hsave : forall s0,
            translationData (saveToHistory now result s0) = translationData s0 /\
            staticImage (saveToHistory now result s0) = staticImage s0 /\
            isAutoMode (saveToHistory now result s0) = isAutoMode s0 /\
            timers (saveToHistory now result s0) = timers s0).
  { intros s0. unfold saveToHistory.
    destruct (isEmpty (items result) && negb (nonempty (summary result))); [auto|].
    destruct (historyUpdate now result (fullTextOf result) (history s0)); cbn; auto. }
  assert (Hhist : history (saveToHistory now result (setTranslationData (Some result) s))
                  = history (saveToHistory now result s) /\
                  localStorage_history
                    (saveToHistory now result (setTranslationData (Some result) s))
                  = localStorage_history (saveToHistory now result s)).
  { unfold saveToHistory.
    destruct (isEmpty (items result) && negb (nonempty (summary result))); [auto|].
    cbn [setTranslationData history].
    destruct (historyUpdate now result (fullTextOf result) (history s)); cbn; auto. }
  destruct (closure_autoSave c) eqn:Hauto;
    destruct (items result) as [|it rest] eqn:Hitems; cbn [isEmpty negb andb];
    cbn [setAppState translationData appState staticImage isAutoMode timers history
         localStorage_history setTranslationData].
  - repeat split; intros; try reflexivity; congruence.
  - destruct (Hsave (setTranslationData (Some result) s)) as (-> & -> & -> & ->).
    destruct Hhist as [-> ->]. cbn.
    repeat split; intros; try reflexivity;
      match goal with H : _ \/ _ |- _ => destruct H; discriminate end.
  - repeat split; intros; try reflexivity; discriminate.
  - repeat split; intros; try reflexivity; discriminate.
Qed.

Lemma result_arrival_witness :
  let s' := handleFrameCapture_resume 1700000000000 firstCall (Ok (Some summaryOnly))
              reviewingApp in
  translationData s' = Some summaryOnly /\ history s' = [] /\
  localStorage_history s' = None /\ truthy (staticImage s') = true.
Proof.
  destruct (result_arrival 1700000000000 firstCall summaryOnly reviewingApp)
    as (Hd & _ & Hs & _ & _ & Hh & _).
  destruct Hh as [Hh Hl]; [now right|].
  cbv zeta. rewrite Hd, Hs, Hh, Hl. repeat split.
Defined.

(* ------------------------------------------------------------------ *)
(** ** Static images, the trigger button and the auto switch *)

(** X13.  While a static image is on display no event starts an inference call:
    the image is never sent.  The awaited calls stay as they are, or one of
    them settles. *)
Theorem static_image_is_never_sent (JSON_parse : jsstring -> Exc ResultValue)
    (s s' : App) (e : Event) :
  truthy (staticImage s) = true ->
  dispatch JSON_parse s e = Some s' ->
  inflight s' = inflight s \/ exists i, inflight s' = removeNth i (inflight s).
Proof.
  intros Hstatic Hd.
  destruct e; cbn [dispatch] in Hd;
    try (match type of Hd with
         | (if ?b then _ else _) = _ => destruct b eqn:Hb; [|discriminate Hd]
         end; injection Hd as <-).
  - left. unfold toggleAutoMode. rewrite Hstatic. destruct (isAutoMode s); reflexivity.
  - left. unfold handleManualScan.
    destruct (negb (isAutoMode s) && AppState_eqb (appState s) IDLE); reflexivity.
  - now left.
  - left. unfold toggleScreenShare.
    destruct (negb (isScreenShareSupported s)); [reflexivity|].
    destruct (screenStream s); [reflexivity|]. destruct granted; reflexivity.
  - now left.
  - left. destruct dataUrl as [[|c r]|]; reflexivity.
  - now left.
  - now left.
  - now left.
  - now left.
  - left. destruct (translationData s) as [data|] eqn:Hdata; [|discriminate Hd].
    destruct (negb (isSettingsOpen s) && nonempty (summary data)); [|discriminate Hd].
    injection Hd as <-. unfold handleManualSave. rewrite Hdata.
    now destruct (saveToHistory_runtime now data s) as (-> & _).
  - unfold captureHookArmed in Hb. rewrite Hstatic in Hb. cbn in Hb.
    rewrite !andb_false_r in Hb. discriminate Hb.
  - left. destruct (nth_error (timers s) i) as [t|]; [|discriminate Hd].
    injection Hd as <-. destruct (callback t); reflexivity.
  - right. exists i.
    destruct (nth_error (inflight s) i) as [c|] eqn:Hi; [|discriminate Hd].
    injection Hd as <-.
    set (s0 := withInflight (removeNth i (inflight s)) s).
    change (removeNth i (inflight s)) with (inflight s0). clearbody s0.
    destruct (if closure_useOfflineMode c then translateImageOffline
              else translateImage JSON_parse response) as [[result|]|];
      cbn [handleFrameCapture_resume].
    + destruct (closure_autoSave c && negb (isEmpty (items result))).
      * cbn [setAppState inflight].
        now destruct (saveToHistory_runtime now result
                        (setTranslationData (Some result) s0)) as (-> & _).
      * reflexivity.
    + destruct (closure_isAutoMode c); reflexivity.
    + destruct (closure_isAutoMode c); reflexivity.
Qed.

Lemma static_image_is_never_sent_witness :
  truthy (staticImage reviewingApp) = true /\
  exists s1, dispatch parseBraces reviewingApp ClickScan = Some s1 /\
             isAutoMode s1 = true /\ inflight s1 = [] /\
             dispatch parseBraces s1 (FrameCaptured false true frame1) = None.
Proof.
  split; [reflexivity|]. eexists. split; [reflexivity|].
  split; [reflexivity|]. split; [|reflexivity].
  destruct (static_image_is_never_sent parseBraces reviewingApp
              (handleManualScan reviewingApp) ClickScan eq_refl eq_refl)
    as [H|[i H]]; [exact H|destruct i; exact H].
Defined.

Lemma removeNth_last {A} (l : list A) (a : A) :
  nth_error (l ++ [a]) (List.length l) = Some a /\
  removeNth (List.length l) (l ++ [a]) = l.
Proof.
  induction l as [|b l [IH1 IH2]]; [split; reflexivity|].
  cbn. split; [exact IH1|]. now rewrite IH2.
Qed.

(** X14.  The trigger button does nothing unless the scan state is [IDLE]: not
    while scanning, and not while an error is shown.  When it is [IDLE],
    the button switches auto mode on and sets the 100 ms timer that
    switches it off again; if no frame is taken in between, the state after
    the timer is the state before the button. *)
Theorem trigger_button_pulse (JSON_parse : jsstring -> Exc ResultValue) (s : App) :
  isSettingsOpen s = false -> isAutoMode s = false ->
  (appState s <> IDLE -> dispatch JSON_parse s ClickScan = Some s) /\
  (appState s = IDLE ->
   exists s1,
     dispatch JSON_parse s ClickScan = Some s1 /\
     isAutoMode s1 = true /\
     timers s1 = timers s ++ [{| delay := 100; callback := SetIsAutoMode false |}] /\
     dispatch JSON_parse s1 (TimerFired (List.length (timers s))) = Some s).
Proof.
  intros Hopen Hauto. cbn [dispatch]. rewrite Hopen, Hauto. cbn [negb andb].
  split.
  - intros H. now rewrite handleManualScan_not_idle.
  - intros Hidle. unfold handleManualScan. rewrite Hauto, Hidle. cbn [negb andb AppState_eqb].
    eexists. split; [reflexivity|]. split; [reflexivity|]. split; [reflexivity|].
    cbn [setTimeout withTimers timers setIsAutoMode].
    destruct (removeNth_last (timers s)
                {| delay := 100; callback := SetIsAutoMode false |}) as [E1 E2].
    rewrite E1, E2. cbn [callback runTimer]. f_equal.
    destruct s. cbn in *. subst. reflexivity.
Qed.

Lemma trigger_button_pulse_witness :
  exists s1,
    dispatch parseBraces initialApp ClickScan = Some s1 /\
    isAutoMode s1 = true /\
    dispatch parseBraces s1 (TimerFired 0) = Some initialApp.
Proof.
  destruct (trigger_button_pulse parseBraces initialApp eq_refl eq_refl) as [_ H].
  destruct (H eq_refl) as (s1 & H1 & H2 & _ & H4).
  exists s1. auto.
Defined.

(** X15.  Switching auto mode off and on again, or on and off again, changes
    nothing but the scan state, which is [IDLE] afterwards: the awaited
    calls are still awaited. *)
Theorem auto_switch_twice (s : App) :
  truthy (staticImage s) = false ->
  toggleAutoMode (toggleAutoMode s) = setAppState IDLE s.
Proof.
  intros Hstatic. unfold toggleAutoMode. rewrite Hstatic.
  destruct s as [auto st data facing stream supp static rect open hist save off store tm calls].
  cbn in Hstatic. destruct auto; cbn; rewrite Hstatic; reflexivity.
Qed.

Lemma auto_switch_twice_witness :
  toggleAutoMode (toggleAutoMode scanningApp) = setAppState IDLE scanningApp /\
  List.map sentImage (inflight (toggleAutoMode (toggleAutoMode scanningApp))) = [frame1].
Proof.
  split; [|reflexivity]. apply auto_switch_twice. reflexivity.
Defined.

(** X16.  Every awaited call was started with auto mode on, whatever the run
    from the initial state: a manual scan too goes through the capture
    hook of the camera feed, which is armed by auto mode.  The only
    delays ever set are 100 ms and 3000 ms: the 2000 ms of the failure
    path of a manual scan is dead code. *)
Theorem calls_start_in_auto_mode (JSON_parse : jsstring -> Exc ResultValue)
    (trace : list Event) (s : App) :
  run JSON_parse initialApp trace = Some s ->
  Forall (fun c => closure_isAutoMode c = true) (inflight s) /\
  Forall (fun t => delay t = 100%Z \/ delay t = 3000%Z) (timers s).
Proof. exact (run_startedInAutoMode JSON_parse trace s). Qed.

Lemma calls_start_in_auto_mode_witness :
  exists s, run parseBraces initialApp manualScanTrace = Some s /\
            List.map closure_isAutoMode (inflight s) = [true] /\
            Forall (fun c => closure_isAutoMode c = true) (inflight s).
Proof.
  eexists. split; [reflexivity|]. split; [reflexivity|].
  apply (calls_start_in_auto_mode parseBraces manualScanTrace). reflexivity.
Defined.

(* ------------------------------------------------------------------ *)
(** ** Data URLs *)

Lemma untilComma_noComma (s : jsstring) : noComma s = true -> untilComma s = s.
Proof.
  induction s as [|c r IH]; [reflexivity|]. cbn. intros H.
  apply andb_true_iff in H. destruct H as [Hc Hr].
  apply negb_true_iff in Hc. rewrite Hc. f_equal. now apply IH.
Qed.

(** X17.  Taking the part after the comma undoes the header of a data URL: the
    image that the camera feed shows under the header
    [data:image/jpeg;base64] is the image that comes back, and an upload
    puts the part after the header on display.  A text without comma gives
    nothing. *)
Theorem data_url_payload (header payload : jsstring) (s : App) :
  noComma header = true -> noComma payload = true ->
  split_comma_1 (header ++ [44%N] ++ payload) = Some payload /\
  split_comma_1 (jpegHeader ++ [44%N] ++ payload) = Some payload /\
  split_comma_1 header = None /\
  staticImage (handleFileUpload (Some (jpegHeader ++ [44%N] ++ payload)) s)
  = Some payload.
Proof.
  intros Hh Hp.
  assert (G : forall h, noComma h = true ->
                split_comma_1 (h ++ [44%N] ++ payload) = Some payload).
  { induction h as [|c r IH]; cbn.
    - intros _. now rewrite untilComma_noComma.
    - intros H. apply andb_true_iff in H. destruct H as [Hc Hr].
      apply negb_true_iff in Hc. rewrite Hc. now apply IH. }
  split; [now apply G|]. split; [now apply G|]. split.
  - clear - Hh. induction header as [|c r IH]; [reflexivity|]. cbn in *.
    apply andb_true_iff in Hh. destruct Hh as [Hc Hr].
    apply negb_true_iff in Hc. rewrite Hc. now apply IH.
  - change (jpegHeader ++ [44%N] ++ payload)
      with (100%N :: (lit "ata:image/jpeg;base64" ++ [44%N] ++ payload)).
    cbn [handleFileUpload setIsAutoMode setTranslationData setStaticImage staticImage].
    change (100%N :: (lit "ata:image/jpeg;base64" ++ [44%N] ++ payload))
      with (jpegHeader ++ [44%N] ++ payload).
    now apply G.
Qed.

Lemma data_url_payload_witness :
  staticImage reviewingApp = Some (lit "AAAA") /\
  split_comma_1 (lit "no comma here") = None.
Proof.
  destruct (data_url_payload (lit "no comma here") (lit "AAAA") initialApp)
    as (_ & _ & H3 & H4); try reflexivity.
  split; [exact H4|exact H3].
Defined.

(* ------------------------------------------------------------------ *)
(** ** Preferences, packs and the store *)

Lemma mount_cells (store : Store) (h : option (list HistoryItem.t)) :
  history (core (mount store h)) = match h with Some l => l | None => [] end /\
  autoSave (core (mount store h))
  = match jp_kr_autosave store with
    | Some v => str_eqb v (lit "true")
    | None => true
    end /\
  useOfflineMode (core (mount store h))
  = match jp_kr_offline_pref store with
    | Some v => str_eqb v (lit "true")
    | None => false
    end /\
  languagePacks (mount store h)
  = match jp_kr_packs store with Some ps => ps | None => INITIAL_PACKS end /\
  localStorage_history (core (mount store h)) = h /\
  localStorage (mount store h) = store.
Proof.
  unfold mount.
  destruct h, (jp_kr_autosave store), (jp_kr_packs store), (jp_kr_offline_pref store);
    cbn; repeat split; reflexivity.
Qed.

Lemma String_of_bool_read (b : bool) : str_eqb (String_of_bool b) (lit "true") = b.
Proof. destruct b; reflexivity. Qed.

(** What a reload gives, cell by cell. *)
Lemma reload_cells (f : AppSettings) :
  history (core (reload f))
  = match localStorage_history (core f) with Some l => l | None => [] end /\
  autoSave (core (reload f))
  = match jp_kr_autosave (localStorage f) with
    | Some v => str_eqb v (lit "true")
    | None => true
    end /\
  useOfflineMode (core (reload f))
  = match jp_kr_offline_pref (localStorage f) with
    | Some v => str_eqb v (lit "true")
    | None => false
    end /\
  languagePacks (reload f)
  = match jp_kr_packs (localStorage f) with Some ps => ps | None => INITIAL_PACKS end.
Proof.
  unfold reload.
  destruct (mount_cells (localStorage f) (localStorage_history (core f)))
    as (-> & -> & -> & -> & _).
  repeat split.
Qed.

Lemma saveToHistory_preferences (now : N) (result : TranslationResult) (s : App) :
  autoSave (saveToHistory now result s) = autoSave s /\
  useOfflineMode (saveToHistory now result s) = useOfflineMode s /\
  (match localStorage_history s with Some l => l | None => [] end = history s ->
   match localStorage_history (saveToHistory now result s) with
   | Some l => l
   | None => []
   end = history (saveToHistory now result s)).
Proof.
  unfold saveToHistory.
  destruct (isEmpty (items result) && negb (nonempty (summary result))); [auto|].
  destruct (historyUpdate now result (fullTextOf result) (history s)); cbn; auto.
Qed.

(** No event of [App] touches a preference, and each keeps the item of
    the history equal to the history. *)
Lemma dispatch_preferences (JSON_parse : jsstring -> Exc ResultValue)
    (s s' : App) (e : Event) :
  dispatch JSON_parse s e = Some s' ->
  autoSave s' = autoSave s /\
  useOfflineMode s' = useOfflineMode s /\
  (match localStorage_history s with Some l => l | None => [] end = history s ->
   match localStorage_history s' with Some l => l | None => [] end = history s').
Proof.
  intros Hd.
  destruct e; cbn [dispatch] in Hd;
    try (match type of Hd with
         | (if ?b then _ else _) = _ => destruct b eqn:Hb; [|discriminate Hd]
         end; injection Hd as <-).
  - unfold toggleAutoMode.
    destruct (truthy (staticImage s)), (isAutoMode s); cbn; auto.
  - unfold handleManualScan.
    destruct (negb (isAutoMode s) && AppState_eqb (appState s) IDLE); cbn; auto.
  - cbn; auto.
  - unfold toggleScreenShare.
    destruct (negb (isScreenShareSupported s)); [auto|].
    destruct (screenStream s); [cbn; auto|]. destruct granted; cbn; auto.
  - cbn; auto.
  - destruct dataUrl as [[|c r]|]; cbn; auto.
  - cbn; auto.
  - cbn; auto.
  - cbn; auto.
  - cbn; auto.
  - destruct (translationData s) as [data|] eqn:Hdata; [|discriminate Hd].
    destruct (negb (isSettingsOpen s) && nonempty (summary data)); [|discriminate Hd].
    injection Hd as <-. unfold handleManualSave. rewrite Hdata.
    apply saveToHistory_preferences.
  - unfold handleFrameCapture_call.
    destruct (AppState_eqb (appState s) SCANNING || isSettingsOpen s); [auto|].
    destruct (negb (isAutoMode s) && negb (truthy (staticImage s))); cbn; auto.
  - destruct (nth_error (timers s) i) as [t|]; [|discriminate Hd].
    injection Hd as <-.
    destruct (callback t); cbn; auto.
  - destruct (nth_error (inflight s) i) as [c|]; [|discriminate Hd].
    injection Hd as <-. cbv zeta.
    set (s0 := withInflight (removeNth i (inflight s)) s).
    change (autoSave s) with (autoSave s0).
    change (useOfflineMode s) with (useOfflineMode s0).
    change (localStorage_history s) with (localStorage_history s0).
    change (history s) with (history s0).
    generalize s0. intros t.
    match goal with
    | |- context [handleFrameCapture_resume _ _ ?a _] => destruct a as [[result|]|]
    end; unfold handleFrameCapture_resume.
    + destruct (closure_autoSave c && negb (isEmpty (items result))).
      * destruct (saveToHistory_preferences now result
                    (setTranslationData (Some result) t)) as (Ha & Ho & Hh).
        cbn. cbn in Ha, Ho, Hh. auto.
      * cbn; auto.
    + destruct (closure_isAutoMode c); cbn; auto.
    + destruct (closure_isAutoMode c); cbn; auto.
Qed.

Lemma settingsDispatch_persisted (JSON_parse : jsstring -> Exc ResultValue)
    (f f' : AppSettings) (e : SettingsEvent) :
  settingsDispatch JSON_parse f e = Some f' ->
  (persistedPreferences f -> persistedPreferences f') /\
  (historyWritesSucceed [e] = true ->
   history (core (reload f)) = history (core f) ->
   history (core (reload f')) = history (core f')).
Proof.
  unfold persistedPreferences.
  destruct (reload_cells f) as (-> & -> & -> & ->).
  destruct (reload_cells f') as (-> & -> & -> & ->).
  intros Hd.
  destruct e; cbn [settingsDispatch] in Hd;
    try (match type of Hd with
         | (if ?b then _ else _) = _ => destruct b eqn:Hb; [|discriminate Hd]
         end; injection Hd as <-).
  - split; [intros (Ha & Ho & Hp)|intros _ Hh];
      repeat split; try assumption; apply String_of_bool_read.
  - split; [intros (Ha & Ho & Hp)|intros _ Hh];
      repeat split; try assumption; apply String_of_bool_read.
  - unfold updatePackStatus. cbn [negb andb].
    destruct (useOfflineMode (core f)) eqn:Hoff;
      (split; [intros (Ha & Ho & Hp)|intros _ Hh]);
      repeat split; try assumption; try reflexivity.
    cbn [core localStorage jp_kr_offline_pref]. now rewrite Hoff.
  - injection Hd as <-.
    split; [intros (Ha & Ho & Hp)|intros _ Hh]; repeat split; try assumption.
  - split; [intros (Ha & Ho & Hp)|intros _ Hh]; repeat split; try assumption.
  - destruct (dispatch JSON_parse (core f) e) as [a|] eqn:Hda; [|discriminate Hd].
    injection Hd as <-.
    destruct (dispatch_preferences JSON_parse (core f) a e Hda) as (Ea & Eo & Hs).
    cbn [core localStorage languagePacks]. rewrite Ea, Eo.
    split; [intros (Ha & Ho & Hp); auto|intros _ Hh; auto].
  - destruct (dispatch JSON_parse (core f) e) as [a|] eqn:Hda; [|discriminate Hd].
    injection Hd as <-.
    destruct (dispatch_preferences JSON_parse (core f) a e Hda) as (Ea & Eo & Hs).
    cbn [core localStorage languagePacks withStoredHistory autoSave useOfflineMode].
    rewrite Ea, Eo.
    split; [intros (Ha & Ho & Hp); auto|discriminate].
Qed.

Lemma settingsRun_persisted (JSON_parse : jsstring -> Exc ResultValue)
    (trace : list SettingsEvent) :
  forall f0 f : AppSettings,
    settingsRun JSON_parse f0 trace = Some f ->
    persistedPreferences f0 ->
    persistedPreferences f /\
    (historyWritesSucceed trace = true ->
     history (core (reload f0)) = history (core f0) ->
     history (core (reload f)) = history (core f)).
Proof.
  induction trace as [|e rest IH]; intros f0 f Hr H0; cbn [settingsRun] in Hr.
  - injection Hr as <-. auto.
  - destruct (settingsDispatch JSON_parse f0 e) as [f1|] eqn:Hd; [|discriminate Hr].
    destruct (settingsDispatch_persisted JSON_parse f0 f1 e Hd) as [HP HH].
    destruct (IH f1 f Hr (HP H0)) as [HP' HH'].
    split; [exact HP'|].
    cbn [historyWritesSucceed forallb]. intros Hok Hh.
    apply andb_true_iff in Hok. destruct Hok as [He Hrest].
    apply HH'; [exact Hrest|]. apply HH; [|exact Hh].
    cbn [historyWritesSucceed forallb]. now rewrite He.
Qed.

(** X18.  Whatever the store held when the page was loaded and whatever
    happened since, a reload of the page gives back the auto-save switch,
    the offline switch and the state of the packs as they are now, the
    writes of their items being taken to succeed: each handler that
    changes one of them writes its item.  It gives back the history too
    as long as no write of its item has failed.  When one fails, the store
    being full, [saveToHistory] keeps the new history and the old item:
    the reload then brings back the entry that the save dropped. *)
Theorem preferences_survive_reload (JSON_parse : jsstring -> Exc ResultValue)
    (store : Store) (storedHistory : option (list HistoryItem.t))
    (trace : list SettingsEvent) (f : AppSettings) :
  settingsRun JSON_parse (mount store storedHistory) trace = Some f ->
  (autoSave (core (reload f)) = autoSave (core f) /\
   useOfflineMode (core (reload f)) = useOfflineMode (core f) /\
   languagePacks (reload f) = languagePacks f) /\
  (historyWritesSucceed trace = true ->
   history (core (reload f)) = history (core f)) /\
  (exists f',
     settingsRun JSON_parse (mount emptyStore (Some [earlierEntry])) saveOnFullStore
     = Some f' /\
     history (core f') = [] /\
     history (core (reload f')) = [earlierEntry]).
Proof.
  intros Hr.
  assert (H0 : persistedPreferences (mount store storedHistory) /\
               history (core (reload (mount store storedHistory)))
               = history (core (mount store storedHistory))).
  { unfold persistedPreferences.
    destruct (reload_cells (mount store storedHistory)) as (-> & -> & -> & ->).
    destruct (mount_cells store storedHistory) as (-> & -> & -> & -> & -> & ->).
    auto. }
  destruct H0 as [HP HH].
  destruct (settingsRun_persisted JSON_parse trace _ f Hr HP) as [HP' HH'].
  split; [exact HP'|]. split; [intros Hok; now apply HH'|].
  eexists. split; [vm_compute; reflexivity|]. split; vm_compute; reflexivity.
Qed.

Lemma preferences_survive_reload_witness :
  let f :=
    updatePackStatus (lit "kr_nmt") true
      (toggleAutoSave
         {| core := setIsSettingsOpen true initialApp;
            languagePacks := INITIAL_PACKS;
            localStorage := emptyStore |}) in
  (autoSave (core (reload f)) = autoSave (core f) /\
   useOfflineMode (core (reload f)) = useOfflineMode (core f) /\
   languagePacks (reload f) = languagePacks f) /\
  history (core (reload f)) = history (core f).
Proof.
  intros f.
  destruct (preferences_survive_reload parseBraces emptyStore None
              [AppEvent ClickSettings; ClickAutoSave; DownloadFinished (lit "kr_nmt")]
              f eq_refl) as (HP & HH & _).
  split; [exact HP|]. apply HH. reflexivity.
Defined.

Lemma install_keeps_all_installed (id : jsstring) (packs : list LanguagePack.t) :
  allPacksDownloaded packs = true ->
  allPacksDownloaded
    (List.map
       (fun p =>
          if str_eqb (LanguagePack.id p) id
          then LanguagePack.mk (LanguagePack.id p) (LanguagePack.name p)
                 (LanguagePack.size p) true (LanguagePack.description p)
          else p) packs) = true.
Proof.
  unfold allPacksDownloaded. induction packs as [|p r IH]; [reflexivity|].
  cbn [List.map forallb]. intros H. apply andb_true_iff in H. destruct H as [Hp Hr].
  rewrite (IH Hr), andb_true_r.
  destruct (str_eqb (LanguagePack.id p) id); [reflexivity|exact Hp].
Qed.

Lemma settingsDispatch_offlineNeedsPacks (JSON_parse : jsstring -> Exc ResultValue)
    (f f' : AppSettings) (e : SettingsEvent) :
  offlineNeedsPacks f -> settingsDispatch JSON_parse f e = Some f' ->
  offlineNeedsPacks f'.
Proof.
  unfold offlineNeedsPacks. intros Hinv Hd.
  destruct e; cbn [settingsDispatch] in Hd;
    try (match type of Hd with
         | (if ?b then _ else _) = _ => destruct b eqn:Hb; [|discriminate Hd]
         end; injection Hd as <-).
  - exact Hinv.
  - intros _. apply andb_true_iff in Hb. exact (proj2 Hb).
  - unfold updatePackStatus. cbn [negb andb].
    destruct (useOfflineMode (core f)) eqn:Hoff.
    + cbn [core setUseOfflineMode useOfflineMode]. discriminate.
    + cbn [core]. rewrite Hoff. discriminate.
  - injection Hd as <-. unfold updatePackStatus. cbn [negb andb core languagePacks].
    intros Hoff. apply install_keeps_all_installed, Hinv, Hoff.
  - exact Hinv.
  - destruct (dispatch JSON_parse (core f) e) as [a|] eqn:Hda; [|discriminate Hd].
    injection Hd as <-. cbn [core languagePacks].
    destruct (dispatch_preferences JSON_parse (core f) a e Hda) as (_ & -> & _).
    exact Hinv.
  - destruct (dispatch JSON_parse (core f) e) as [a|] eqn:Hda; [|discriminate Hd].
    injection Hd as <-. cbn [core languagePacks withStoredHistory useOfflineMode].
    destruct (dispatch_preferences JSON_parse (core f) a e Hda) as (_ & -> & _).
    exact Hinv.
Qed.

(** X19.  Offline mode is on only while every language pack is installed:
    the property holds in a fresh state and no event breaks it.  The
    switch is dead until all packs are installed, and uninstalling a pack
    turns offline mode off. *)
Theorem offline_mode_needs_every_pack (JSON_parse : jsstring -> Exc ResultValue)
    (f0 f : AppSettings) (trace : list SettingsEvent) :
  (useOfflineMode (core f0) = true -> allPacksDownloaded (languagePacks f0) = true) ->
  settingsRun JSON_parse f0 trace = Some f ->
  useOfflineMode (core f) = true -> allPacksDownloaded (languagePacks f) = true.
Proof.
  revert f0. induction trace as [|e rest IH]; intros f0 H0 Hr; cbn in Hr.
  - injection Hr as <-. exact H0.
  - destruct (settingsDispatch JSON_parse f0 e) as [f1|] eqn:Hd; [|discriminate Hr].
    exact (IH f1 (settingsDispatch_offlineNeedsPacks JSON_parse f0 f1 e H0 Hd) Hr).
Qed.

Lemma offline_mode_needs_every_pack_witness :
  let trace := [AppEvent ClickSettings;
                DownloadFinished (lit "jp_ocr"); DownloadFinished (lit "kr_nmt");
                ClickOfflineMode] in
  exists f,
    settingsRun parseBraces (mount emptyStore None) trace = Some f /\
    useOfflineMode (core f) = true /\
    allPacksDownloaded (languagePacks f) = true.
Proof.
  intros trace.
  eexists. split; [reflexivity|]. split; [reflexivity|].
  apply (offline_mode_needs_every_pack parseBraces (mount emptyStore None) _ trace).
  - discriminate.
  - reflexivity.
  - reflexivity.
Defined.

(* ------------------------------------------------------------------ *)
(** ** The simulated download *)

Lemma str_eqb_refl (a : jsstring) : str_eqb a a = true.
Proof. now apply str_eqb_eq. Qed.

Local Open Scope Q_scope.

Lemma ge_Q (a b : Q) : ge a b = true <-> b <= a.
Proof.
  unfold ge. cbn [gt strict_eq Number_Q].
  rewrite orb_true_iff, negb_true_iff. split.
  - intros [E|E].
    + apply Qlt_le_weak, Qnot_le_lt. intros X. apply Qle_bool_iff in X. congruence.
    + apply Qeq_bool_iff in E. rewrite E. apply Qle_refl.
  - intros Hle. destruct (Qle_bool a b) eqn:E; [right|now left].
    apply Qle_bool_iff in E. apply Qeq_bool_iff. now apply Qle_antisym.
Qed.

Lemma orZero_Q (c : Q) : orZero c == c.
Proof.
  unfold orZero. cbn [strict_eq of_Z Number_Q].
  destruct (Qeq_bool c (inject_Z 0)) eqn:E; cbn [orb].
  - apply Qeq_bool_iff in E. now rewrite E.
  - replace (Qeq_bool c c) with true; [reflexivity|].
    symmetry. apply Qeq_bool_iff. reflexivity.
Qed.

Lemma downloadTick_report (id : jsstring) (r c : Q) (p : Progress Q) :
  p id = Some c -> 100 <= c ->
  downloadTick id r p = (deleteProgress id p, true).
Proof.
  intros Hp Hc. unfold downloadTick. rewrite Hp.
  replace (ge (orZero c) (of_Z 100)) with true; [reflexivity|].
  symmetry. apply ge_Q. rewrite orZero_Q. exact Hc.
Qed.

Lemma downloadTick_grow (id : jsstring) (r c : Q) (p : Progress Q) :
  p id = Some c -> c < 100 ->
  downloadTick id r p = (setProgress id (orZero c + (r * 10 + 5)) p, false).
Proof.
  intros Hp Hc. unfold downloadTick. rewrite Hp.
  replace (ge (orZero c) (of_Z 100)) with false; [reflexivity|].
  symmetry. apply not_true_is_false. intros E. apply ge_Q in E.
  rewrite orZero_Q in E. change (of_Z 100) with 100 in E. lra.
Qed.

(** After [k] runs of the callback the progress lies between [5 k] and
    [15 k]; from there the pack is reported at a run between the 8th and
    the 21st, the entry of the pack is there at every run before and gone
    after. *)
Lemma ticksToInstall_bounds (id : jsstring) (randoms : list Q) :
  forall (p : Progress Q) (c : Q) (k : Z),
    p id = Some c ->
    5 * inject_Z k <= c -> c <= 15 * inject_Z k ->
    (0 <= k <= 20)%Z ->
    (21 - k <= Z.of_nat (List.length randoms))%Z ->
    Forall isRandom randoms ->
    exists m, ticksToInstall id randoms p = Some m /\
              (8 <= k + Z.of_nat m <= 21)%Z /\
              (forall j, (j < m)%nat ->
                 exists c', progressAfter id j randoms p id = Some c') /\
              progressAfter id m randoms p id = None.
Proof.
  induction randoms as [|r rest IH]; intros p c k Hp Hlo Hhi Hk Hlen Hrs.
  - cbn [List.length] in Hlen. lia.
  - cbn [ticksToInstall].
    destruct (Qlt_le_dec c 100) as [Hlt|Hge].
    + rewrite (downloadTick_grow id r c p Hp Hlt).
      assert (Hk' : (k < 20)%Z).
      { apply Z.lt_nge. intros H20.
        assert (H100 : inject_Z 100 <= inject_Z (5 * k))
          by (rewrite <- Zle_Qle; lia).
        rewrite inject_Z_mult in H100. change (inject_Z 100) with 100 in H100.
        change (inject_Z 5) with 5 in H100. lra. }
      inversion Hrs as [|r' rest' [Hr0 Hr1] Hrest]; subst.
      assert (Hk1 : inject_Z (k + 1) == inject_Z k + 1)
        by (rewrite inject_Z_plus; reflexivity).
      pose proof (orZero_Q c) as Hcur.
      destruct (IH (setProgress id (orZero c + (r * 10 + 5)) p)
                   (orZero c + (r * 10 + 5)) (k + 1)%Z) as (m & Hm & Hb & Hbefore & Hafter).
      * unfold setProgress. now rewrite str_eqb_refl.
      * rewrite Hk1, Hcur. lra.
      * rewrite Hk1, Hcur. lra.
      * lia.
      * cbn [List.length] in Hlen. lia.
      * exact Hrest.
      * exists (S m). rewrite Hm. split; [reflexivity|]. split; [lia|]. split.
        -- intros [|j] Hj.
           ++ exists c. exact Hp.
           ++ cbn [progressAfter]. rewrite (downloadTick_grow id r c p Hp Hlt).
              apply Hbefore. lia.
        -- cbn [progressAfter]. rewrite (downloadTick_grow id r c p Hp Hlt).
           exact Hafter.
    + rewrite (downloadTick_report id r c p Hp Hge).
      exists 1%nat. split; [reflexivity|]. split; [|split].
      * assert (H15 : inject_Z 100 <= inject_Z (15 * k)).
        { rewrite inject_Z_mult. change (inject_Z 100) with 100.
          change (inject_Z 15) with 15. lra. }
        rewrite <- Zle_Qle in H15. lia.
      * intros j Hj. assert (j = O) by lia. subst j. exists c. exact Hp.
      * cbn [progressAfter]. rewrite (downloadTick_report id r c p Hp Hge).
        cbn [fst]. unfold deleteProgress. now rewrite str_eqb_refl.
Qed.

(** X20.  In exact arithmetic, a download that [startDownload] accepts
    reports its pack as installed at a run of the interval's callback
    between the 8th and the 21st, whatever [Math.random] gives: the
    progress grows by at least 5 and by less than 15 at each run and is
    compared with 100 before it grows.  At every run before the report a
    second download of the pack is refused; after the report the entry is
    gone and a download is accepted again.  The doubles of the program
    are the same sums rounded and can cross 100 one run earlier: with
    0.7499999999999999 at every run the pack is reported at run 10 in
    exact arithmetic and at run 9 on binary64. *)
Theorem download_ends_between_8_and_21_ticks (id : jsstring) (p p0 : Progress Q)
    (randoms : list Q) :
  startDownload id p = Some p0 ->
  Forall isRandom randoms ->
  (21 <= List.length randoms)%nat ->
  (exists n,
     ticksToInstall id randoms p0 = Some n /\ (8 <= n <= 21)%nat /\
     (forall k, (k < n)%nat ->
        startDownload id (progressAfter id k randoms p0) = None) /\
     startDownload id (progressAfter id n randoms p0) <> None) /\
  ticksToInstall (lit "jp_ocr") (repeat (6755399441055743 # 9007199254740992) 21)
    (setProgress (lit "jp_ocr") 0 noProgress) = Some 10%nat /\
  ticksToInstall (lit "jp_ocr") (repeat (S754_finite false 6755399441055743 (-53)) 21)
    (setProgress (lit "jp_ocr") (float_of_Z 0) noProgress) = Some 9%nat.
Proof.
  unfold startDownload at 1. intros Hs Hrs Hlen.
  destruct (p id) eqn:Hp; [discriminate Hs|]. injection Hs as <-.
  change (@of_Z Q Number_Q 0) with (inject_Z 0).
  assert (H0 : setProgress id (inject_Z 0) p id = Some 0).
  { unfold setProgress. now rewrite str_eqb_refl. }
  assert (Hlo : 5 * inject_Z 0 <= 0) by (change (inject_Z 0) with 0; lra).
  assert (Hhi : 0 <= 15 * inject_Z 0) by (change (inject_Z 0) with 0; lra).
  assert (Hk : (0 <= 0 <= 20)%Z) by lia.
  assert (Hl : (21 - 0 <= Z.of_nat (List.length randoms))%Z) by lia.
  destruct (ticksToInstall_bounds id randoms (setProgress id (inject_Z 0) p) 0 0%Z
              H0 Hlo Hhi Hk Hl Hrs) as (m & Hm & Hb & Hbefore & Hafter).
  split; [|split].
  - exists m. split; [exact Hm|]. split; [lia|]. split.
    + intros k Hk'. destruct (Hbefore k Hk') as (c' & Hc').
      unfold startDownload. now rewrite Hc'.
    + unfold startDownload. rewrite Hafter. discriminate.
  - vm_compute. reflexivity.
  - vm_compute. reflexivity.
Qed.

Lemma download_ends_between_8_and_21_ticks_witness :
  exists n,
    ticksToInstall (lit "jp_ocr") (repeat (1 # 2) 21)
      (setProgress (lit "jp_ocr") 0 noProgress) = Some n /\
    (8 <= n <= 21)%nat.
Proof.
  destruct (download_ends_between_8_and_21_ticks (lit "jp_ocr") noProgress
              (setProgress (lit "jp_ocr") 0 noProgress) (repeat (1 # 2) 21))
    as [(n & Hn & Hb & _) _].
  - reflexivity.
  - repeat constructor; cbn; lra.
  - cbn. lia.
  - exists n. split; assumption.
Defined.

Local Close Scope Q_scope.
